(** * S3BL: a shallow embedding of the Teensy 4.0 second-stage bootloader

    The model follows [src/src/main.cpp] and [src/include/flash.h]:
    the flash programmer ([flash_erase_sector], [flash_write] and its
    read-back pass), the boot decision of [setup], the recovery HTTP
    upload path (header parsing, body reception, multipart extraction,
    flashing, metadata update, reset) and the pieces of the Arduino
    [String] class it relies on.

    Conventions.
    - [uint32_t], [unsigned long] (32 bit on ARM) and [size_t] values are
      [Z] with their wrap-around written out by [u32].
    - The request body is the [String code]; its bytes are [list byte].
      [String::indexOf] and [String::substring] go through C strings
      ([strstr], [out = buffer + left]), so they stop at a NUL byte.
    - Side effects are recorded in a trace of [effect]s; flash is a word
      memory keyed by byte address, with NOR semantics (erase sets a sector
      to all ones, programming can only clear bits). *)

From Stdlib Require Import ZArith Lia List Bool.
From Stdlib Require Import Strings.String Strings.Byte.
Import ListNotations.
Open Scope Z_scope.

(* ------------------------------------------------------------------ *)
(** ** Machine integers *)

Definition u32 (z : Z) : Z := z mod 2 ^ 32.

(** [int] (32-bit two's complement) view of a [Z]. *)
Definition i32 (z : Z) : Z :=
  let r := z mod 2 ^ 32 in if r <? 2 ^ 31 then r else r - 2 ^ 32.

(* ------------------------------------------------------------------ *)
(** ** Arduino [String] as used by the upload path *)

Module AString.

(** The C string starting at a buffer position: bytes up to the first NUL. *)
Fixpoint cstr (l : list byte) : list byte :=
  match l with
  | [] => []
  | b :: t => if Byte.eqb b x00 then [] else b :: cstr t
  end.

Fixpoint is_prefix (p l : list byte) : bool :=
  match p, l with
  | [], _ => true
  | _ :: _, [] => false
  | a :: p', b :: l' => Byte.eqb a b && is_prefix p' l'
  end.

(** [strstr] on C strings: first position of [needle] in [hay], offset by
    [pos]; an empty needle is found at once. *)
Fixpoint strstr_aux (needle hay : list byte) (pos : nat) : option nat :=
  if is_prefix needle hay then Some pos
  else match hay with
       | [] => None
       | _ :: t => strstr_aux needle t (S pos)
       end.

Definition strstr (hay needle : list byte) : option nat :=
  strstr_aux (cstr needle) (cstr hay) 0.

(** [int String::indexOf(const String &s2, unsigned int fromIndex)]:
    [if (fromIndex >= len) return -1;
     found = strstr(buffer + fromIndex, s2.buffer);
     return found ? found - buffer : -1;] *)
Definition indexOf_from (s s2 : list byte) (fromIndex : Z) : Z :=
  let from := u32 fromIndex in
  if from >=? Z.of_nat (List.length s) then -1
  else match strstr (skipn (Z.to_nat from) s) s2 with
       | Some k => from + Z.of_nat k
       | None => -1
       end.

Definition indexOf (s s2 : list byte) : Z := indexOf_from s s2 0.

(** [String String::substring(unsigned int left, unsigned int right)]:
    swap if [left > right]; empty if [left >= len]; clamp [right] to
    [len]; the result is copied as the C string [buffer + left]. *)
Definition substring (s : list byte) (left right : Z) : list byte :=
  let l0 := u32 left in
  let r0 := u32 right in
  let l := Z.min l0 r0 in
  let r := Z.max l0 r0 in
  let len := Z.of_nat (List.length s) in
  if l >=? len then []
  else cstr (firstn (Z.to_nat (Z.min r len - l)) (skipn (Z.to_nat l) s)).

Definition startsWith (s p : list byte) : bool := is_prefix p s.

Definition is_digit (b : byte) : bool :=
  let n := Byte.to_N b in ((48 <=? n) && (n <=? 57))%N.

Definition is_space (b : byte) : bool :=
  let n := Byte.to_N b in ((n =? 32) || ((9 <=? n) && (n <=? 13)))%N.

Fixpoint skip_space (l : list byte) : list byte :=
  match l with
  | b :: t => if is_space b then skip_space t else l
  | [] => []
  end.

Fixpoint digits_val (acc : Z) (l : list byte) : Z :=
  match l with
  | b :: t =>
      if is_digit b then digits_val (acc * 10 + (Z.of_N (Byte.to_N b) - 48)) t
      else acc
  | [] => acc
  end.

(** [long String::toInt()] is [atol(buffer)], i.e. newlib's [strtol]:
    leading white space, an optional sign, decimal digits, saturated to
    the [long] range. *)
Definition toInt (s : list byte) : Z :=
  let l := skip_space (cstr s) in
  let '(neg, ds) :=
    match l with
    | b :: t => if Byte.eqb b "-"%byte then (true, t)
                else if Byte.eqb b "+"%byte then (false, t) else (false, l)
    | [] => (false, [])
    end in
  let v := digits_val 0 ds in
  if neg then Z.max (- v) (- 2 ^ 31) else Z.min v (2 ^ 31 - 1).

End AString.

Abbreviation bytes := list_byte_of_string.
Definition CRLF : list byte := [x0d; x0a].

(* ------------------------------------------------------------------ *)
(** ** Multipart extraction (main.cpp lines 386-397) *)

(** Returns [(bin_start, bin_end)] as the code computes them; the caller
    accepts them when [bin_start >= 0 && bin_end > bin_start]. *)
Definition extract_bounds (code : list byte) : Z * Z :=
  let content_type_idx := AString.indexOf code (bytes "Content-Type:") in
  if content_type_idx >=? 0 then
    let bin_hdr_end := AString.indexOf_from code (CRLF ++ CRLF) content_type_idx in
    if bin_hdr_end >=? 0 then
      let bin_start := i32 (bin_hdr_end + 4) in
      let boundary := AString.substring code 0 (AString.indexOf code CRLF) in
      let bin_end := i32 (AString.indexOf_from code boundary bin_start - 4) in
      (bin_start, bin_end)
    else (-1, -1)
  else (-1, -1).

Definition extraction_ok (be : Z * Z) : bool :=
  let '(s, e) := be in (s >=? 0) && (e >? s).

(** The byte range [[s, e)] of the buffer. *)
Definition range (code : list byte) (s e : Z) : list byte :=
  firstn (Z.to_nat (e - s)) (skipn (Z.to_nat s) code).

(** The body of the section 8 example, around a payload. *)
Definition example_prefix : list byte :=
  bytes "----X" ++ CRLF
  ++ bytes "Content-Disposition: form-data; name=" ++ [x22]
  ++ bytes "firmware" ++ [x22] ++ CRLF
  ++ bytes "Content-Type: application/octet-stream" ++ CRLF ++ CRLF.

Definition example_suffix : list byte := CRLF ++ bytes "----X--".

Definition example_body (payload : list byte) : list byte :=
  example_prefix ++ payload ++ example_suffix.

(* ------------------------------------------------------------------ *)
(** ** Flash programmer (main.cpp lines 55-152, flash.h) *)

Module Flash.

Definition SECTOR_SIZE : Z := 4096.

(** Commands the FlexSPI sequences issue: a sector erase at the address
    loaded into [IPCR0], and a page program of one word. *)
Inductive flash_cmd :=
| EraseSector (addr : Z)
| ProgramWord (addr : Z) (w : Z).

(** Flash contents: the 32-bit word stored at each (word-aligned) byte
    address. *)
Definition flash_mem := Z -> Z.

Definition sector_base (a : Z) : Z := a - a mod SECTOR_SIZE.

(** NOR semantics: a sector erase sets the sector containing the address
    to all ones; a program can only clear bits. *)
Definition apply_cmd (m : flash_mem) (c : flash_cmd) : flash_mem :=
  match c with
  | EraseSector a =>
      fun x => if (sector_base a <=? x) && (x <? sector_base a + SECTOR_SIZE)
               then 2 ^ 32 - 1 else m x
  | ProgramWord a w => fun x => if x =? a then Z.land (m x) w else m x
  end.

Definition run_cmds (m : flash_mem) (cs : list flash_cmd) : flash_mem :=
  fold_left apply_cmd cs m.

(** [void flash_erase_sector(uint32_t addr)]: write enable, then sector
    erase at [IPCR0 = addr]. *)
Definition flash_erase_sector (addr : Z) : list flash_cmd := [EraseSector addr].

(** What the verification loop prints. *)
Inductive verify_report :=
| VerifyOk
| VerifyFailed (i : nat) (expected got : Z).

(** The verification loop [for (i = 0; i < words; i++) if (written[i] !=
    src[i]) { print i, src[i], written[i]; verify_failed = true; break; }],
    starting at index [i] with [k] iterations left.  The first component
    lists the indices whose words were compared. *)
Fixpoint verify_from (written src : nat -> Z) (i k : nat) : list nat * verify_report :=
  match k with
  | O => ([], VerifyOk)
  | S k' =>
      if negb (written i =? src i) then ([i], VerifyFailed i (src i) (written i))
      else let '(ev, r) := verify_from written src (S i) k' in (i :: ev, r)
  end.

Definition verify (written src : nat -> Z) (words : nat) : list nat * verify_report :=
  verify_from written src 0 words.

(** [void flash_write(uint32_t addr, const void* data, size_t len)]:
    [src i] is the word [((const uint32_t* )data)[i]].  Returns the
    commands issued, the flash contents afterwards, and the verification
    pass over them. *)
Definition flash_write (m : flash_mem) (addr : Z) (src : nat -> Z) (len : Z)
  : list flash_cmd * flash_mem * (list nat * verify_report) :=
  let aligned_addr := Z.land addr (u32 (Z.lnot (SECTOR_SIZE - 1))) in
  let words := Z.to_nat (u32 (len + 3) / 4) in
  let programs :=
    map (fun i => ProgramWord (u32 (addr + Z.of_nat i * 4)) (src i)) (seq 0 words) in
  let cmds := flash_erase_sector aligned_addr ++ programs in
  let m' := run_cmds m cmds in
  let written := fun i => m' (u32 (addr + Z.of_nat i * 4)) in
  (cmds, m', verify written src words).

Definition erased_sectors (cs : list flash_cmd) : list Z :=
  flat_map (fun c => match c with EraseSector a => [sector_base a] | _ => [] end) cs.

Definition programmed (cs : list flash_cmd) : list (Z * Z) :=
  flat_map (fun c => match c with ProgramWord a w => [(a, w)] | _ => [] end) cs.

End Flash.

(** Little-endian word [i] of the buffer viewed from byte offset [off]:
    [((const uint32_t* )(code.c_str() + off))[i]].  Bytes past the end of
    the buffer read as 0 (the terminating NUL); the upload path never
    reads past the framing that follows the payload. *)
Definition load_word (buf : list byte) (off : Z) (i : nat) : Z :=
  let b k := Z.of_N (Byte.to_N (nth (Z.to_nat off + 4 * i + k) buf x00)) in
  b 0%nat + b 1%nat * 2 ^ 8 + b 2%nat * 2 ^ 16 + b 3%nat * 2 ^ 24.

(* ------------------------------------------------------------------ *)
(** ** Metadata and the boot decision (main.cpp lines 19-33, 188-283) *)

Record boot_metadata := {
  active_slot : Z;
  valid_a : Z;
  valid_b : Z;
  boot_count : Z;
  boot_success : Z;
}.

Definition METADATA_ADDRESS : Z := 0x60031000.
Definition SLOT_A_ADDRESS : Z := 0x60032000.
Definition SLOT_B_ADDRESS : Z := 0x60112000.

Module Boot.

(** [(sp & 0x60000000) != 0x60000000 || (rv & 0x60000000) != 0x60000000]:
    the guard under which a jump is aborted. *)
Definition vector_table_rejected (sp rv : Z) : bool :=
  negb (Z.land sp 0x60000000 =? 0x60000000) || negb (Z.land rv 0x60000000 =? 0x60000000).

Inductive boot_action :=
| JumpToApp (address : Z)   (* [jump_to_app(address)], does not return *)
| AbortJump (address : Z)   (* the warning is printed and [setup] returns *)
| EnterRecovery.            (* the recovery HTTP server *)

(** One branch of the chain: read [sp] and [rv] from the slot, then
    either abort or jump. *)
Definition try_slot (mem : Flash.flash_mem) (slot : Z) : boot_action :=
  let sp := mem slot in
  let rv := mem (slot + 4) in
  if vector_table_rejected sp rv then AbortJump slot else JumpToApp slot.

Definition boot_decision (m : boot_metadata) (mem : Flash.flash_mem) : boot_action :=
  if (active_slot m =? 0) && negb (valid_a m =? 0) then try_slot mem SLOT_A_ADDRESS
  else if (active_slot m =? 1) && negb (valid_b m =? 0) then try_slot mem SLOT_B_ADDRESS
  else if negb (valid_a m =? 0) then try_slot mem SLOT_A_ADDRESS
  else if negb (valid_b m =? 0) then try_slot mem SLOT_B_ADDRESS
  else EnterRecovery.

End Boot.


(* ------------------------------------------------------------------ *)
(** ** The recovery upload path (main.cpp lines 316-439) *)

Module Net.

(** The connected client and the clock.  [clock] counts milliseconds
    since power-on; [millis()] returns it modulo 2^32 and each call takes
    one millisecond.  [stream] holds the bytes the peer sends, each with
    its arrival time; [fin] is the time the peer closes, if it does. *)
Record world := {
  clock : Z;
  stream : list (Z * byte);
  fin : option Z;
}.

Definition millis (w : world) : Z * world :=
  (u32 (clock w), {| clock := clock w + 1; stream := stream w; fin := fin w |}).

Definition available (w : world) : bool :=
  match stream w with
  | (t, _) :: _ => t <=? clock w
  | [] => false
  end.

(** [EthernetClient::connected()] stays true in CLOSE_WAIT while received
    data is still buffered. *)
Definition connected (w : world) : bool :=
  match fin w with
  | None => true
  | Some t => (clock w <? t) || available w
  end.

Definition read (w : world) : byte * world :=
  match stream w with
  | (_, b) :: r => (b, {| clock := clock w; stream := r; fin := fin w |})
  | [] => (xff, w)
  end.

End Net.

Module Upload.
Import Net.

Definition MAX_UPLOAD_SIZE : Z := 1024 * 1024.

(** [while (client.available()) { char c = client.read(); if (c == '\n')
    break; if (c != '\r') line += c; }].  Every iteration consumes one
    byte, so [n = length (stream w)] iterations suffice. *)
Fixpoint read_line_loop (n : nat) (w : world) (line : list byte) : list byte * world :=
  match n with
  | O => (line, w)
  | S n' =>
      if available w then
        let '(c, w1) := read w in
        if Byte.eqb c x0a then (line, w1)
        else read_line_loop n' w1 (if Byte.eqb c x0d then line else line ++ [c])
      else (line, w)
  end.

Definition read_line (w : world) : list byte * world :=
  read_line_loop (List.length (stream w)) w [].

(** The header loop, returning [content_length] (initially [0]).
    [line.substring(15).toInt()]; the [headers] string it also builds is
    never read. *)
Fixpoint headers_loop (fuel : nat) (w : world) (content_length : Z) : option (Z * world) :=
  match fuel with
  | O => None
  | S f =>
      if connected w then
        let '(line, w1) := read_line w in
        if (List.length line =? 0)%nat then Some (content_length, w1)
        else
          let cl :=
            if AString.startsWith line (bytes "Content-Length:")
            then AString.toInt (AString.substring line 15 (Z.of_nat (List.length line)))
            else content_length in
          headers_loop f w1 cl
      else Some (content_length, w)
  end.

Record body_state := {
  upload_bytes : Z;
  upload_too_large : bool;
  timeout : Z;
  code : list byte;
}.

(** [upload_bytes < content_length] compares a [size_t] with an [int]:
    the [int] is converted to unsigned. *)
Definition below (st : body_state) (content_length : Z) : bool :=
  upload_bytes st <? u32 content_length.

(** The inner loop [while (client.available() && upload_bytes <
    content_length) { ... }]; one byte per iteration. *)
Fixpoint body_inner (n : nat) (content_length : Z) (st : body_state) (w : world)
  : body_state * world :=
  match n with
  | O => (st, w)
  | S n' =>
      if available w && below st content_length then
        let '(c, w1) := read w in
        let st1 := {| upload_bytes := upload_bytes st + 1;
                      upload_too_large := upload_too_large st;
                      timeout := timeout st;
                      code := code st ++ [c] |} in
        if upload_bytes st1 >? MAX_UPLOAD_SIZE then
          ({| upload_bytes := upload_bytes st1; upload_too_large := true;
              timeout := timeout st1; code := code st1 |}, w1)
        else
          let '(t, w2) := millis w1 in
          body_inner n' content_length
            {| upload_bytes := upload_bytes st1; upload_too_large := false;
               timeout := u32 (t + 10000); code := code st1 |} w2
      else (st, w)
  end.

(** The outer loop [while (client.connected() && upload_bytes <
    content_length && millis() < timeout) { inner; if (upload_too_large)
    break; }]. *)
Fixpoint body_outer (fuel : nat) (content_length : Z) (st : body_state) (w : world)
  : option (body_state * world) :=
  match fuel with
  | O => None
  | S f =>
      if connected w && below st content_length then
        let '(t, w1) := millis w in
        if t <? timeout st then
          let '(st1, w2) := body_inner (List.length (stream w1)) content_length st w1 in
          if upload_too_large st1 then Some (st1, w2)
          else body_outer f content_length st1 w2
        else Some (st, w1)
      else Some (st, w)
  end.

(** [unsigned long timeout = millis() + 10000; String code = "";] and the
    loop. *)
Definition read_body (fuel : nat) (content_length : Z) (w : world)
  : option (body_state * world) :=
  let '(t, w1) := millis w in
  body_outer fuel content_length
    {| upload_bytes := 0; upload_too_large := false;
       timeout := u32 (t + 10000); code := [] |} w1.

(** Observable effects of a connection. *)
Inductive effect :=
| EFlash (c : Flash.flash_cmd)          (* a flash controller command *)
| EVerify (r : Flash.verify_report)     (* what the read-back pass prints *)
| ESave (m : boot_metadata)             (* [save_metadata] *)
| EResp (status : Z)                    (* the status line sent *)
| EStop                                 (* [client.stop()] *)
| EReset.                               (* [SCB_AIRCR = 0x05FA0004] *)

Inductive outcome :=
| Continue    (* [continue]: back to the accept loop *)
| Halt.       (* [while (1);] after the reset request *)

Record result := {
  trace : list effect;
  next : outcome;
  meta : boot_metadata;          (* [init_meta] afterwards *)
  flash : Flash.flash_mem;
}.

(** Lines 419-428. *)
Definition update_metadata (m : boot_metadata) : boot_metadata :=
  if active_slot m =? 0 then
    {| active_slot := 1; valid_a := 0; valid_b := 1;
       boot_count := boot_count m; boot_success := boot_success m |}
  else
    {| active_slot := 0; valid_a := 1; valid_b := 0;
       boot_count := boot_count m; boot_success := boot_success m |}.

Definition target_addr (m : boot_metadata) : Z :=
  if active_slot m =? 0 then SLOT_B_ADDRESS else SLOT_A_ADDRESS.

(** Lines 384-439: extract, flash, update and save the metadata, answer,
    reset. *)
Definition commit_upload (m : boot_metadata) (fl : Flash.flash_mem) (code : list byte)
  : result :=
  let target := target_addr m in
  let '(bin_start, bin_end) := extract_bounds code in
  if (bin_start >=? 0) && (bin_end >? bin_start) then
    let bin_len := bin_end - bin_start in
    let c1 := Flash.flash_erase_sector target in
    let fl1 := Flash.run_cmds fl c1 in
    let '(c2, fl2, (_, rep)) := Flash.flash_write fl1 target (load_word code bin_start) bin_len in
    let m' := update_metadata m in
    {| trace := map EFlash (c1 ++ c2) ++ [EVerify rep; ESave m'; EResp 200; EStop; EReset];
       next := Halt; meta := m'; flash := fl2 |}
  else {| trace := [EResp 400; EStop]; next := Continue; meta := m; flash := fl |}.

(** Lines 358-379, then [commit_upload]. *)
Definition after_body (m : boot_metadata) (fl : Flash.flash_mem) (st : body_state) (w : world)
  : result :=
  if upload_too_large st then
    {| trace := [EResp 413; EStop]; next := Continue; meta := m; flash := fl |}
  else
    let '(t, _) := millis w in
    if t >=? timeout st then
      {| trace := [EResp 408; EStop]; next := Continue; meta := m; flash := fl |}
    else commit_upload m fl (code st).

(** The [POST /upload] branch, from the header loop on. *)
Definition handle_upload (fuel : nat) (m : boot_metadata) (fl : Flash.flash_mem) (w : world)
  : option result :=
  match headers_loop fuel w 0 with
  | None => None
  | Some (content_length, w1) =>
      match read_body fuel content_length w1 with
      | None => None
      | Some (st, w2) => Some (after_body m fl st w2)
      end
  end.

(** Metadata records the trace persisted, and flash commands it issued. *)
Definition saved (tr : list effect) : list boot_metadata :=
  flat_map (fun e => match e with ESave m => [m] | _ => [] end) tr.

Definition flash_cmds (tr : list effect) : list Flash.flash_cmd :=
  flat_map (fun e => match e with EFlash c => [c] | _ => [] end) tr.

Definition responses (tr : list effect) : list Z :=
  flat_map (fun e => match e with EResp s => [s] | _ => [] end) tr.

Definition verify_reports (tr : list effect) : list Flash.verify_report :=
  flat_map (fun e => match e with EVerify r => [r] | _ => [] end) tr.

Definition resets (tr : list effect) : nat :=
  List.length (filter (fun e => match e with EReset => true | _ => false end) tr).

End Upload.

(* ------------------------------------------------------------------ *)
(** ** Metadata persistence (main.cpp lines 153-206) *)

Module Meta.

(** The low byte of a value, [(uint8_t)z]. *)
Definition byte_of (z : Z) : byte :=
  match Byte.of_N (Z.to_N (z mod 256)) with Some b => b | None => x00 end.

(** The four bytes of a [uint32_t] in memory (little-endian). *)
Definition le32 (z : Z) : list byte :=
  [byte_of z; byte_of (z / 256); byte_of (z / 256 / 256); byte_of (z / 256 / 256 / 256)].

(** [(const uint8_t* )&meta_data]: the five fields in order, no padding. *)
Definition encode (m : boot_metadata) : list byte :=
  le32 (active_slot m) ++ le32 (valid_a m) ++ le32 (valid_b m)
  ++ le32 (boot_count m) ++ le32 (boot_success m).

(** The fields hold [uint32_t] values. *)
Definition is_u32 (z : Z) : bool := (0 <=? z) && (z <? 2 ^ 32).

Definition fields_u32 (m : boot_metadata) : bool :=
  is_u32 (active_slot m) && is_u32 (valid_a m) && is_u32 (valid_b m)
  && is_u32 (boot_count m) && is_u32 (boot_success m).

(** [sizeof(boot_metadata_t)]. *)
Definition META_SIZE : nat := 20.

(** [f.read((uint8_t* )&meta_data, sizeof(meta_data))]. *)
Definition decode (b : list byte) : boot_metadata :=
  {| active_slot := load_word b 0 0; valid_a := load_word b 0 1;
     valid_b := load_word b 0 2; boot_count := load_word b 0 3;
     boot_success := load_word b 0 4 |}.

(** The LittleFS_Program volume mounted by [myfs.begin(PROG_FLASH_SIZE)],
    reduced to the one file the code opens: the contents of
    ["/meta.bin"], if it exists. *)
Record volume := { meta_bin : option (list byte) }.

(** [save_metadata]: [myfs.open("/meta.bin", FILE_WRITE)] opens the file
    with [LFS_O_RDWR | LFS_O_CREAT] and, for [FILE_WRITE], seeks to its
    end (Teensy's LittleFS; [FILE_WRITE_BEGIN] is the mode that starts at
    0), so [f.write] appends the 20 bytes.  The open is taken to
    succeed. *)
Definition save_metadata (v : volume) (m : boot_metadata) : volume :=
  let old := match meta_bin v with Some b => b | None => [] end in
  {| meta_bin := Some (old ++ encode m) |}.

(** [load_metadata]: [myfs.open("/meta.bin", FILE_READ)] fails when the
    file does not exist; the record is read only when [f.size() ==
    sizeof(meta_data)]. *)
Definition load_metadata (v : volume) : option boot_metadata :=
  match meta_bin v with
  | Some b => if (List.length b =? META_SIZE)%nat then Some (decode b) else None
  | None => None
  end.

Definition zero_meta : boot_metadata :=
  {| active_slot := 0; valid_a := 0; valid_b := 0; boot_count := 0; boot_success := 0 |}.

(** What lines 189-206 report about the metadata. *)
Inductive init_report :=
| Loaded                (* the loaded record is kept *)
| Reinit (ok : bool).   (* zeroed and saved; "Metadata write successful!" iff [ok] *)

(** [if (!load_metadata(init_meta) || init_meta.active_slot == 0xFFFFFFFF)
    { zero init_meta; save_metadata(init_meta); verify }]. *)
Definition init_metadata (v : volume) : boot_metadata * volume * init_report :=
  let reinit :=
    let v1 := save_metadata v zero_meta in
    let ok := match load_metadata v1 with
              | Some vm => active_slot vm =? 0
              | None => false
              end in
    (zero_meta, v1, Reinit ok) in
  match load_metadata v with
  | Some m => if active_slot m =? 0xFFFFFFFF then reinit else (m, v, Loaded)
  | None => reinit
  end.

(** [setup] from the metadata step to the boot decision. *)
Definition boot (v : volume) (mem : Flash.flash_mem) : Boot.boot_action * volume :=
  let '(m, v1, _) := init_metadata v in (Boot.boot_decision m mem, v1).

(** The [save_metadata] calls of a connection's trace, applied to the
    volume. *)
Definition persist (v : volume) (tr : list Upload.effect) : volume :=
  fold_left (fun v e => match e with Upload.ESave m => save_metadata v m | _ => v end) tr v.

End Meta.

(* ------------------------------------------------------------------ *)
(** ** Waiting for the request line (main.cpp lines 291-297) *)

Module Recovery.
Import Net.

(** [delay(ms)]. *)
Definition delay (ms : Z) (w : world) : world :=
  {| clock := clock w + ms; stream := stream w; fin := fin w |}.

(** [while (client.connected() && client.available() == 0 &&
    millis() - start_time < 1000) { delay(1); }], the subtraction in
    [unsigned long]. *)
Fixpoint wait_loop (fuel : nat) (start_time : Z) (w : world) : option world :=
  match fuel with
  | O => None
  | S f =>
      if connected w && negb (available w) then
        let '(t, w1) := millis w in
        if u32 (t - start_time) <? 1000 then wait_loop f start_time (delay 1 w1)
        else Some w1
      else Some w
  end.

(** [unsigned long start_time = millis();] and the loop. *)
Definition wait_request (fuel : nat) (w : world) : option world :=
  let '(t0, w1) := millis w in wait_loop fuel t0 w1.

(** [while (client.connected() && client.available()) { char c =
    client.read(); if (c == '\n') break; if (c != '\r') req_line += c; }];
    one byte per iteration. *)
Fixpoint request_line_loop (n : nat) (w : world) (line : list byte) : list byte * world :=
  match n with
  | O => (line, w)
  | S n' =>
      if connected w && available w then
        let '(c, w1) := read w in
        if Byte.eqb c x0a then (line, w1)
        else request_line_loop n' w1 (if Byte.eqb c x0d then line else line ++ [c])
      else (line, w)
  end.

Definition request_line (w : world) : list byte * world :=
  request_line_loop (List.length (stream w)) w [].

(** One accepted client (lines 300-475): wait for data, read the request
    line, dispatch.  [POST /upload] goes to the upload path; the two
    other branches answer [200] and close (their bodies are not
    modelled), then the accept loop goes on. *)
Definition serve_client (fuel : nat) (m : boot_metadata) (fl : Flash.flash_mem) (w : world)
  : option Upload.result :=
  match wait_request fuel w with
  | None => None
  | Some w1 =>
      let '(req_line, w2) := request_line w1 in
      if AString.startsWith req_line (bytes "POST /upload") then Upload.handle_upload fuel m fl w2
      else if AString.startsWith req_line (bytes "GET / ")
              || AString.startsWith req_line (bytes "GET /HTTP") then
        Some {| Upload.trace := [Upload.EResp 200; Upload.EStop]; Upload.next := Upload.Continue;
                Upload.meta := m; Upload.flash := fl |}
      else
        Some {| Upload.trace := [Upload.EResp 200; Upload.EStop]; Upload.next := Upload.Continue;
                Upload.meta := m; Upload.flash := fl |}
  end.

End Recovery.

(** A client that sends [l] at once (arrival time [t]). *)
Definition sent_at (t : Z) (l : list byte) : list (Z * byte) := map (fun b => (t, b)) l.

Definition m0 : boot_metadata :=
  {| active_slot := 0; valid_a := 1; valid_b := 0; boot_count := 0; boot_success := 0 |}.

(** Bytes with no NUL, where C-string functions see the whole buffer. *)
Definition nul_free (l : list byte) : bool := forallb (fun b => negb (Byte.eqb b x00)) l.

Definition inj_src (i : nat) : Z := Z.of_nat i + 0x11.
Definition inj_written (i : nat) : Z := if (i =? 1)%nat then 0 else inj_src i.

(** A slot whose first word is blank; every other word lies in the
    external-flash window. *)
Definition slot_a_blank : Flash.flash_mem :=
  fun a => if a =? SLOT_A_ADDRESS then 0 else 0x60001000.

Definition meta_ab : boot_metadata :=
  {| active_slot := 0; valid_a := 1; valid_b := 1; boot_count := 0; boot_success := 0 |}.

(** A 4102-byte payload of [0x01] bytes into slot B, whose second sector
    still holds the zero words of an earlier image. *)
Definition big_body : list byte := example_body (repeat x01 4102).
Definition old_flash : Flash.flash_mem := fun _ => 0.

(** A request whose headers are [hdr] and whose body is [body], all
    received at time 0, handled from clock [t]; [f] is when the peer
    closes. *)
Definition request_at (t : Z) (hdr body : list byte) (f : option Z) : Net.world :=
  {| Net.clock := t; Net.stream := sent_at 0 (hdr ++ CRLF ++ body); Net.fin := f |}.

(** The 8-byte payload example, declared 115 bytes long, of which the
    peer sends 113 before closing (the final [--] never arrives). *)
Definition short_body : list byte := firstn 113 (example_body (bytes "ABCDEFGH")).
Definition w_short : Net.world :=
  request_at 0 (bytes "Content-Length: 115" ++ CRLF) short_body (Some 0).

(** A 5-byte non-multipart body, handled 49.7 days after power-on
    ([millis()] within 5 s of its wrap) and shortly after power-on. *)
Definition WRAP_CLOCK : Z := 2 ^ 32 - 5000.
Definition hello_hdr : list byte := bytes "Content-Length: 5" ++ CRLF.
Definition w_hello_wrap : Net.world := request_at WRAP_CLOCK hello_hdr (bytes "hello") None.
Definition w_hello : Net.world := request_at 7 hello_hdr (bytes "hello") None.

(** A request with no [Content-Length] header. *)
Definition host_hdr : list byte := bytes "Host: s3bl" ++ CRLF.
Definition w_nolen_wrap : Net.world := request_at WRAP_CLOCK host_hdr [] None.
Definition w_nolen : Net.world := request_at 7 host_hdr [] None.

(* ------------------------------------------------------------------ *)
(** ** Readings of the spec used by the theorems *)

(** The fixed high-bit mask test on one word. *)
Definition in_flash_window (w : Z) : Prop := Z.land w 0x60000000 = 0x60000000.

(** The boot branches in priority order, each a metadata condition and the
    slot it names. *)
Definition boot_branches (m : boot_metadata) : list (bool * Z) :=
  [ ((active_slot m =? 0) && negb (valid_a m =? 0), SLOT_A_ADDRESS);
    ((active_slot m =? 1) && negb (valid_b m =? 0), SLOT_B_ADDRESS);
    (negb (valid_a m =? 0), SLOT_A_ADDRESS);
    (negb (valid_b m =? 0), SLOT_B_ADDRESS) ].

(** The slot of the first branch whose metadata condition holds. *)
Definition selected_slot (m : boot_metadata) : option Z :=
  option_map snd (find fst (boot_branches m)).

(* ------------------------------------------------------------------ *)
(** ** Invariants of the body loops and the header scan *)

(** What the body loops keep, from a state that is not yet too large. *)
Definition body_ok (cl : Z) (st : Upload.body_state) : Prop :=
  Z.of_nat (List.length (Upload.code st)) = Upload.upload_bytes st
  /\ 0 <= Upload.upload_bytes st <= u32 cl
  /\ Upload.upload_bytes st <= Upload.MAX_UPLOAD_SIZE
  /\ Upload.upload_too_large st = false.

(** What holds when the body loops return: the buffer is what was read
    off the stream, its length is counted, and the bound holds. *)
Definition body_post (cl : Z) (st0 : Upload.body_state) (w0 : Net.world)
    (st : Upload.body_state) (w : Net.world) : Prop :=
  Upload.code st ++ map snd (Net.stream w) = Upload.code st0 ++ map snd (Net.stream w0)
  /\ Z.of_nat (List.length (Upload.code st)) = Upload.upload_bytes st
  /\ 0 <= Upload.upload_bytes st <= u32 cl
  /\ Upload.upload_too_large st = (Upload.upload_bytes st >? Upload.MAX_UPLOAD_SIZE).

Definition CL_PREFIX : list byte := bytes "Content-Length:".

(** The value the header loop keeps for a list of header lines: that of
    the last line starting with [Content-Length:], 0 if there is none. *)
Definition last_content_length (ls : list (list byte)) : Z :=
  match rev (filter (fun l => AString.startsWith l CL_PREFIX) ls) with
  | l :: _ => AString.toInt (AString.substring l 15 (Z.of_nat (List.length l)))
  | [] => 0
  end.

(** A header line as the peer sends it: non-empty, with no CR or LF. *)
Definition header_line_ok (l : list byte) : bool :=
  (0 <? List.length l)%nat && negb (existsb (fun b => Byte.eqb b x0a || Byte.eqb b x0d) l).

(** A 5-byte body sent at once. *)
Definition w_body : Net.world :=
  {| Net.clock := 7; Net.stream := sent_at 0 (bytes "hello"); Net.fin := None |}.

(** Three header lines, two of them [Content-Length:]. *)
Definition hl_ex : list (list byte) :=
  [bytes "Host: s3bl"; bytes "Content-Length: 12"; bytes "Content-Length: 7"].

Definition w_hdr : Net.world :=
  {| Net.clock := 3;
     Net.stream := sent_at 0 (List.concat (map (fun l => l ++ CRLF) hl_ex) ++ CRLF ++ bytes "xy");
     Net.fin := None |}.

(** A connected peer that sends nothing, 500 ms before [millis()] wraps. *)
Definition w_idle : Net.world :=
  {| Net.clock := 2 ^ 32 - 500; Net.stream := []; Net.fin := None |}.

(** A payload longer than slot A. *)
Definition long_payload : list byte := repeat x01 (Z.to_nat 917520).

(* ------------------------------------------------------------------ *)
(** ** Vector table check *)

Lemma land_mask_reflect (w : Z) :
  (Z.land w 0x60000000 =? 0x60000000) = true <-> in_flash_window w.
Proof. unfold in_flash_window. apply Z.eqb_eq. Qed.

(** C8: a candidate vector table is accepted (the jump is taken) iff both
    the initial stack pointer and the reset vector pass the mask test
    [word & 0x60000000 == 0x60000000]; otherwise the jump is aborted. *)
Theorem vector_table_check_iff (mem : Flash.flash_mem) (slot : Z) :
  (Boot.try_slot mem slot = Boot.JumpToApp slot <->
     in_flash_window (mem slot) /\ in_flash_window (mem (slot + 4)))
  /\ (Boot.try_slot mem slot = Boot.AbortJump slot <->
     ~ (in_flash_window (mem slot) /\ in_flash_window (mem (slot + 4)))).
Proof.
  unfold Boot.try_slot, Boot.vector_table_rejected.
  rewrite <- !land_mask_reflect.
  destruct (Z.land (mem slot) 0x60000000 =? 0x60000000),
           (Z.land (mem (slot + 4)) 0x60000000 =? 0x60000000); simpl;
    intuition (try discriminate; try congruence).
Qed.

(* ------------------------------------------------------------------ *)
(** ** The read-back pass *)

Section Verify.
Variables written src : nat -> Z.

Lemma verify_from_all_match (k i0 : nat) :
  (forall j, (i0 <= j < i0 + k)%nat -> written j = src j) ->
  Flash.verify_from written src i0 k = (seq i0 k, Flash.VerifyOk).
Proof.
  revert i0; induction k as [|k IH]; intros i0 Hm; simpl; [reflexivity|].
  rewrite (Hm i0) by lia. rewrite Z.eqb_refl. simpl.
  rewrite IH; [reflexivity|]. intros j Hj. apply Hm. lia.
Qed.

Lemma verify_from_first_mismatch (k i0 i : nat) :
  (i0 <= i < i0 + k)%nat ->
  (forall j, (i0 <= j < i)%nat -> written j = src j) ->
  written i <> src i ->
  Flash.verify_from written src i0 k
  = (seq i0 (S (i - i0)), Flash.VerifyFailed i (src i) (written i)).
Proof.
  revert i0; induction k as [|k IH]; intros i0 Hi Hm Hne; [lia|].
  simpl. destruct (Nat.eq_dec i0 i) as [<-|Hlt].
  - apply Z.eqb_neq in Hne. rewrite Hne. simpl.
    now rewrite Nat.sub_diag.
  - rewrite (Hm i0) by lia. rewrite Z.eqb_refl. simpl.
    rewrite (IH (S i0)) by (try lia; intros j Hj; apply Hm; lia).
    replace (i - i0)%nat with (S (i - S i0)) by lia. reflexivity.
Qed.

End Verify.

(** C9: over an [n]-word write, the read-back pass compares the words in
    index order; at the first mismatching index [i] it stops, having
    compared exactly the indices [0..i], and reports [i] with the expected
    and the actual word; when all [n] words match it reports success. *)
Theorem verify_stops_at_first_mismatch (written src : nat -> Z) (n : nat) :
  (forall i, (i < n)%nat ->
     (forall j, (j < i)%nat -> written j = src j) -> written i <> src i ->
     Flash.verify written src n = (seq 0 (S i), Flash.VerifyFailed i (src i) (written i)))
  /\ ((forall j, (j < n)%nat -> written j = src j) ->
     Flash.verify written src n = (seq 0 n, Flash.VerifyOk)).
Proof.
  unfold Flash.verify. split.
  - intros i Hi Hm Hne.
    rewrite (verify_from_first_mismatch written src n 0 i) by (try lia; intros; apply Hm; lia).
    now rewrite Nat.sub_0_r.
  - intros Hm. apply verify_from_all_match. intros j Hj. apply Hm. lia.
Qed.

Lemma verify_stops_at_first_mismatch_witness :
  Flash.verify inj_written inj_src 3 = ([0; 1]%nat, Flash.VerifyFailed 1 0x12 0)
  /\ Flash.verify inj_src inj_src 3 = ([0; 1; 2]%nat, Flash.VerifyOk).
Proof.
  split.
  - apply (proj1 (verify_stops_at_first_mismatch inj_written inj_src 3) 1%nat).
    + lia.
    + intros j Hj. replace j with 0%nat by lia. reflexivity.
    + vm_compute. discriminate.
  - apply (proj2 (verify_stops_at_first_mismatch inj_src inj_src 3)).
    intros; reflexivity.
Defined.

(* ------------------------------------------------------------------ *)
(** ** The boot decision *)

Lemma try_slot_jump (mem : Flash.flash_mem) (slot : Z) :
  in_flash_window (mem slot) /\ in_flash_window (mem (slot + 4)) ->
  Boot.try_slot mem slot = Boot.JumpToApp slot.
Proof.
  intros [H1 H2]. unfold Boot.try_slot, Boot.vector_table_rejected.
  apply land_mask_reflect in H1, H2. now rewrite H1, H2.
Qed.

Lemma try_slot_abort (mem : Flash.flash_mem) (slot : Z) :
  ~ (in_flash_window (mem slot) /\ in_flash_window (mem (slot + 4))) ->
  Boot.try_slot mem slot = Boot.AbortJump slot.
Proof.
  intros H. unfold Boot.try_slot, Boot.vector_table_rejected.
  rewrite <- !land_mask_reflect in H.
  destruct (Z.land (mem slot) 0x60000000 =? 0x60000000),
           (Z.land (mem (slot + 4)) 0x60000000 =? 0x60000000);
    simpl; tauto.
Qed.

(** C2 (counterexample): with [{active_slot:0, valid_a:1, valid_b:0}] and
    slot A's first word [0], the plausibility check rejects A, yet the
    boot does not enter Recovery: the jump is aborted and [setup]
    returns.  With [valid_b:1] and a plausible slot B, B is not booted
    either. *)
Lemma boot_rejected_slot_no_fallthrough :
  Boot.boot_decision m0 slot_a_blank = Boot.AbortJump SLOT_A_ADDRESS
  /\ Boot.boot_decision m0 slot_a_blank <> Boot.EnterRecovery
  /\ Boot.try_slot slot_a_blank SLOT_B_ADDRESS = Boot.JumpToApp SLOT_B_ADDRESS
  /\ Boot.boot_decision meta_ab slot_a_blank = Boot.AbortJump SLOT_A_ADDRESS.
Proof. vm_compute. repeat split; discriminate. Qed.

(** C2 (amended): the branch is chosen by the metadata alone, in the
    priority order (1) [active_slot==0 && valid_a], (2) [active_slot==1 &&
    valid_b], (3) [valid_a], (4) [valid_b]; Recovery is entered exactly
    when no branch condition holds.  The plausibility check gates only
    the chosen slot: if it passes the slot is booted, if it fails the jump
    is aborted and no later branch, and not Recovery, is tried. *)
Theorem boot_decision_priority (m : boot_metadata) (mem : Flash.flash_mem) :
  (selected_slot m = None -> Boot.boot_decision m mem = Boot.EnterRecovery)
  /\ (forall slot, selected_slot m = Some slot ->
        (in_flash_window (mem slot) /\ in_flash_window (mem (slot + 4)) ->
           Boot.boot_decision m mem = Boot.JumpToApp slot)
        /\ (~ (in_flash_window (mem slot) /\ in_flash_window (mem (slot + 4))) ->
           Boot.boot_decision m mem = Boot.AbortJump slot)).
Proof.
  unfold selected_slot, boot_branches, Boot.boot_decision.
  destruct (active_slot m =? 0), (valid_a m =? 0), (active_slot m =? 1), (valid_b m =? 0);
    simpl;
    (split; [intros H; try discriminate; reflexivity
            |intros slot Hs;
             first [discriminate
                   |injection Hs as <-; split; [apply try_slot_jump | apply try_slot_abort]]]).
Qed.

Lemma boot_decision_priority_witness :
  selected_slot meta_ab = Some SLOT_A_ADDRESS
  /\ Boot.boot_decision meta_ab slot_a_blank = Boot.AbortJump SLOT_A_ADDRESS.
Proof.
  split; [reflexivity|].
  apply (proj2 (proj2 (boot_decision_priority meta_ab slot_a_blank) SLOT_A_ADDRESS eq_refl)).
  unfold in_flash_window. vm_compute. intros [H _]. discriminate.
Defined.

(* ------------------------------------------------------------------ *)
(** ** Sector erasure of [flash_write] *)

Lemma erased_sectors_programs (addr : Z) (src : nat -> Z) (l : list nat) :
  Flash.erased_sectors
    (map (fun i => Flash.ProgramWord (u32 (addr + Z.of_nat i * 4)) (src i)) l) = [].
Proof. induction l; simpl; auto. Qed.

Lemma programmed_programs (addr : Z) (src : nat -> Z) (l : list nat) :
  Flash.programmed
    (map (fun i => Flash.ProgramWord (u32 (addr + Z.of_nat i * 4)) (src i)) l)
  = map (fun i => (u32 (addr + Z.of_nat i * 4), src i)) l.
Proof. induction l; simpl; congruence. Qed.

(** [flash_write] programs [ceil(len/4)] consecutive words from [addr]
    and erases the one sector holding [addr & ~4095], whatever [len]. *)
Lemma flash_write_commands (m : Flash.flash_mem) (addr : Z) (src : nat -> Z) (len : Z) :
  0 <= len <= 2 ^ 32 - 4 ->
  let cs := fst (fst (Flash.flash_write m addr src len)) in
  Flash.erased_sectors cs = [Flash.sector_base (Z.land addr (u32 (Z.lnot 4095)))]
  /\ Flash.programmed cs
     = map (fun i => (u32 (addr + Z.of_nat i * 4), src i)) (seq 0 (Z.to_nat ((len + 3) / 4))).
Proof.
  intros Hl. unfold Flash.flash_write. simpl.
  replace (u32 (len + 3)) with (len + 3) by (unfold u32; rewrite Z.mod_small; lia).
  split.
  - now rewrite erased_sectors_programs.
  - now rewrite programmed_programs.
Qed.

(** C4 (failing input): an 8192-byte write at the sector-aligned slot B
    base programs 2048 words, but the range [[0x60112000, 0x60114000)]
    overlaps the sectors at [0x60112000] and [0x60113000] and only the
    first is erased. *)
Theorem flash_write_erases_one_sector :
  let cs := fst (fst (Flash.flash_write (fun _ => 0) SLOT_B_ADDRESS (fun _ => 0x01010101) 8192)) in
  Flash.erased_sectors cs = [SLOT_B_ADDRESS]
  /\ List.length (Flash.programmed cs) = 2048%nat
  /\ SLOT_B_ADDRESS < SLOT_B_ADDRESS + Flash.SECTOR_SIZE < SLOT_B_ADDRESS + 8192
  /\ ~ In (SLOT_B_ADDRESS + Flash.SECTOR_SIZE) (Flash.erased_sectors cs).
Proof. vm_compute. repeat split; try reflexivity; intros [H|[]]; discriminate. Qed.

(* ------------------------------------------------------------------ *)
(** ** Searching the upload buffer *)

Module Search.
Import AString.


Lemma cstr_app (l1 l2 : list byte) :
  nul_free l1 = true -> cstr (l1 ++ l2) = l1 ++ cstr l2.
Proof.
  induction l1 as [|b t IH]; simpl; [reflexivity|].
  intros H. apply andb_prop in H as [Hb Ht].
  destruct (Byte.eqb b x00); [discriminate|]. now rewrite IH.
Qed.

Lemma cstr_nul_free (l : list byte) : nul_free l = true -> cstr l = l.
Proof. intros H. rewrite <- (app_nil_r l) at 1. rewrite cstr_app; auto using app_nil_r. Qed.

Lemma is_prefix_app (n l l2 : list byte) :
  is_prefix n l = true -> is_prefix n (l ++ l2) = true.
Proof.
  revert l; induction n as [|a n IH]; intros [|b l]; simpl; auto; try discriminate.
  intros H. apply andb_prop in H as [H1 H2]. now rewrite H1, IH.
Qed.

Lemma is_prefix_app_false (n l l2 : list byte) :
  is_prefix n l = false -> (List.length n <= List.length l)%nat ->
  is_prefix n (l ++ l2) = false.
Proof.
  revert l; induction n as [|a n IH]; intros [|b l]; simpl; auto; try discriminate; try lia.
  intros H Hl. destruct (Byte.eqb a b); simpl in *; auto. apply IH; auto. lia.
Qed.

(** A match of [n] that runs past the end of [l] contains the byte that
    follows [l]. *)
Lemma is_prefix_straddle (n l r : list byte) (c : byte) :
  is_prefix n (l ++ c :: r) = true -> is_prefix n l = true \/ In c n.
Proof.
  revert l; induction n as [|a n IH]; intros l H; [left; reflexivity|].
  destruct l as [|b l]; simpl in H |- *.
  - apply andb_prop in H as [H _]. apply byte_dec_bl in H. subst. right; left; reflexivity.
  - apply andb_prop in H as [H1 H2]. rewrite H1. simpl.
    destruct (IH l H2) as [H|H]; [left; exact H|right; right; exact H].
Qed.

Lemma strstr_aux_cons (n : list byte) (a : byte) (l : list byte) (pos : nat) :
  strstr_aux n (a :: l) pos = if is_prefix n (a :: l) then Some pos else strstr_aux n l (S pos).
Proof. reflexivity. Qed.

Lemma strstr_aux_ge (n h : list byte) (pos k : nat) :
  strstr_aux n h pos = Some k -> (pos <= k)%nat.
Proof.
  revert pos; induction h as [|a h IH]; intros pos; simpl.
  - destruct (is_prefix n []); intros H; inversion H; lia.
  - destruct (is_prefix n (a :: h)); intros H; [inversion H; lia|].
    apply IH in H. lia.
Qed.

(** A match found inside [l1] stays the first match in [l1 ++ l2]. *)
Lemma strstr_aux_app (n l1 l2 : list byte) (pos k : nat) :
  strstr_aux n l1 pos = Some k -> (k - pos + List.length n <= List.length l1)%nat ->
  strstr_aux n (l1 ++ l2) pos = Some k.
Proof.
  revert pos; induction l1 as [|a t IH]; intros pos H Hk.
  - simpl in H. destruct n; simpl in *; [destruct l2; exact H|discriminate].
  - rewrite <- app_comm_cons, strstr_aux_cons. rewrite strstr_aux_cons in H.
    change (a :: t ++ l2) with ((a :: t) ++ l2).
    destruct (is_prefix n (a :: t)) eqn:E.
    + rewrite (is_prefix_app n (a :: t) l2 E). exact H.
    + pose proof (strstr_aux_ge _ _ _ _ H).
      rewrite (is_prefix_app_false n (a :: t) l2 E) by (simpl in *; lia).
      apply IH; [exact H|simpl in Hk; lia].
Qed.

Lemma u32_small (z : Z) : 0 <= z < 2 ^ 32 -> u32 z = z.
Proof. intros. unfold u32. now apply Z.mod_small. Qed.

Lemma i32_small (z : Z) : 0 <= z < 2 ^ 31 -> i32 z = z.
Proof.
  intros H. unfold i32. rewrite Z.mod_small by lia.
  destruct (z <? 2 ^ 31) eqn:E; [reflexivity|apply Z.ltb_ge in E; lia].
Qed.

(** [indexOf] on a buffer [P ++ X] from [f], when the match lies inside
    the known part [P]. *)
Lemma indexOf_in_prefix (P X n : list byte) (f : Z) (k : nat) :
  0 <= f < 2 ^ 32 -> (Z.to_nat f < List.length P)%nat ->
  nul_free (skipn (Z.to_nat f) P) = true ->
  strstr_aux (cstr n) (skipn (Z.to_nat f) P) 0 = Some k ->
  (k + List.length (cstr n) <= List.length P - Z.to_nat f)%nat ->
  indexOf_from (P ++ X) n f = f + Z.of_nat k.
Proof.
  intros Hf Hlt Hnul Hs Hk. unfold indexOf_from, strstr.
  rewrite u32_small by exact Hf.
  destruct (f >=? Z.of_nat (List.length (P ++ X))) eqn:E.
  { apply Z.geb_le in E. rewrite length_app in E. lia. }
  rewrite skipn_app. replace (Z.to_nat f - List.length P)%nat with 0%nat by lia.
  simpl. rewrite cstr_app by exact Hnul.
  rewrite (strstr_aux_app _ _ _ 0 k Hs); [reflexivity|].
  rewrite length_skipn. lia.
Qed.

End Search.

(* ------------------------------------------------------------------ *)
(** ** Extraction on the section 8 example *)

Lemma cr_not_in_boundary : ~ In x0d (bytes "----X").
Proof. simpl. intuition discriminate. Qed.

(** With no boundary inside the payload, the boundary found after the
    payload is the one that follows its CRLF. *)
Lemma strstr_boundary_after (p : list byte) (pos : nat) :
  AString.strstr_aux (bytes "----X") p pos = None ->
  AString.strstr_aux (bytes "----X") (p ++ example_suffix) pos
  = Some (pos + List.length p + 2)%nat.
Proof.
  revert pos; induction p as [|a t IH]; intros pos H.
  - simpl. f_equal. lia.
  - rewrite Search.strstr_aux_cons in H.
    destruct (AString.is_prefix (bytes "----X") (a :: t)) eqn:E; [discriminate|].
    change ((a :: t) ++ example_suffix) with (a :: (t ++ example_suffix)).
    rewrite Search.strstr_aux_cons.
    destruct (AString.is_prefix (bytes "----X") (a :: t ++ example_suffix)) eqn:E2.
    + exfalso.
      change (a :: t ++ example_suffix) with ((a :: t) ++ x0d :: (x0a :: bytes "----X--")) in E2.
      destruct (Search.is_prefix_straddle _ _ _ _ E2) as [H2|H2].
      * congruence.
      * exact (cr_not_in_boundary H2).
    + rewrite (IH (S pos) H). simpl. f_equal. lia.
Qed.

Lemma example_prefix_length : List.length example_prefix = 98%nat.
Proof. reflexivity. Qed.

Lemma example_body_length (p : list byte) :
  List.length (example_body p) = (107 + List.length p)%nat.
Proof.
  unfold example_body. rewrite !length_app, example_prefix_length. simpl. lia.
Qed.

(** For a payload with no NUL byte and no boundary token inside, the code
    computes [bin_start = 98] (just after the blank line) and [bin_end =
    98 + |payload| - 2]: the boundary index minus 4. *)
Lemma extract_bounds_example (p : list byte) :
  nul_free p = true ->
  AString.strstr_aux (bytes "----X") p 0 = None ->
  Z.of_nat (List.length p) <= Upload.MAX_UPLOAD_SIZE ->
  extract_bounds (example_body p) = (98, 96 + Z.of_nat (List.length p)).
Proof.
  intros Hnul Hnb Hlen.
  assert (Hsuf : nul_free (p ++ example_suffix) = true).
  { unfold nul_free in *. rewrite forallb_app, Hnul. reflexivity. }
  unfold extract_bounds, AString.indexOf, example_body.
  rewrite (Search.indexOf_in_prefix example_prefix (p ++ example_suffix) _ 0 56)
    by (first [vm_compute; reflexivity | rewrite ?example_prefix_length; simpl; lia]).
  change (0 + Z.of_nat 56) with 56. simpl (56 >=? 0).
  rewrite (Search.indexOf_in_prefix example_prefix (p ++ example_suffix) _ 56 38)
    by (first [vm_compute; reflexivity | rewrite ?example_prefix_length; simpl; lia]).
  change (56 + Z.of_nat 38) with 94. simpl (94 >=? 0).
  rewrite (Search.indexOf_in_prefix example_prefix (p ++ example_suffix) CRLF 0 5)
    by (first [vm_compute; reflexivity | rewrite ?example_prefix_length; simpl; lia]).
  change (i32 (94 + 4)) with 98.
  assert (Hb : AString.substring (example_prefix ++ p ++ example_suffix) 0 (0 + Z.of_nat 5)
               = bytes "----X").
  { unfold AString.substring. rewrite !Search.u32_small by lia.
    rewrite length_app, example_prefix_length.
    destruct (Z.min 0 (0 + Z.of_nat 5) >=? Z.of_nat (98 + List.length (p ++ example_suffix))) eqn:E.
    { apply Z.geb_le in E. lia. }
    replace (Z.to_nat (Z.min (Z.max 0 (0 + Z.of_nat 5))
               (Z.of_nat (98 + List.length (p ++ example_suffix))) - Z.min 0 (0 + Z.of_nat 5)))
      with 5%nat by lia.
    reflexivity. }
  rewrite Hb.
  unfold AString.indexOf_from. rewrite Search.u32_small by lia.
  rewrite length_app, example_prefix_length.
  destruct (98 >=? Z.of_nat (98 + List.length (p ++ example_suffix))) eqn:E.
  { apply Z.geb_le in E. rewrite length_app in E.
    change (List.length example_suffix) with 9%nat in E. lia. }
  change (Z.to_nat 98) with (List.length example_prefix).
  rewrite skipn_app, skipn_all, Nat.sub_diag. simpl skipn. rewrite app_nil_l.
  replace (56 >=? 0) with true by reflexivity.
  replace (94 >=? 0) with true by reflexivity.
  unfold AString.strstr. rewrite (Search.cstr_nul_free _ Hsuf).
  change (AString.cstr (bytes "----X")) with (bytes "----X").
  rewrite (strstr_boundary_after p 0 Hnb).
  cbv beta iota. f_equal. unfold Upload.MAX_UPLOAD_SIZE in Hlen.
  rewrite Search.i32_small; lia.
Qed.

(** For such a payload [p], extraction succeeds iff [|p| > 2], and the
    range it returns is [p] without its last two bytes. *)
Lemma extract_example_payload (p : list byte) :
  nul_free p = true ->
  AString.strstr_aux (bytes "----X") p 0 = None ->
  Z.of_nat (List.length p) <= Upload.MAX_UPLOAD_SIZE ->
  extraction_ok (extract_bounds (example_body p)) = (2 <? List.length p)%nat
  /\ range (example_body p) 98 (96 + Z.of_nat (List.length p))
     = firstn (List.length p - 2) p.
Proof.
  intros Hnul Hnb Hlen. rewrite (extract_bounds_example p Hnul Hnb Hlen). split.
  - unfold extraction_ok.
    change ((98 >=? 0) && (96 + Z.of_nat (List.length p) >? 98))
      with (96 + Z.of_nat (List.length p) >? 98).
    destruct (2 <? List.length p)%nat eqn:E.
    + apply Nat.ltb_lt in E. apply Z.gtb_lt. lia.
    + apply Nat.ltb_ge in E. rewrite Z.gtb_ltb. apply Z.ltb_ge. lia.
  - unfold range, example_body.
    change (Z.to_nat 98) with (List.length example_prefix).
    rewrite skipn_app, skipn_all, Nat.sub_diag. simpl skipn. rewrite app_nil_l.
    rewrite firstn_app.
    replace (Z.to_nat (96 + Z.of_nat (List.length p) - 98)) with (List.length p - 2)%nat by lia.
    replace (List.length p - 2 - List.length p)%nat with 0%nat by lia.
    rewrite app_nil_r. reflexivity.
Qed.

(** C5 (failing input): on the section 8 body with [<PAYLOAD> = "ABCDEF"],
    extraction succeeds with [start = 98], [end = 102]: the boundary
    ["----X"] (the first line) is found at 106, right after the CRLF, and
    [- 4] removes the CRLF and the payload's last two bytes, so the range
    is ["ABCD"], not ["ABCDEF"]. *)
Theorem extraction_drops_two_payload_bytes :
  extract_bounds (example_body (bytes "ABCDEF")) = (98, 102)
  /\ AString.indexOf_from (example_body (bytes "ABCDEF")) (bytes "----X") 98 = 106
  /\ extraction_ok (extract_bounds (example_body (bytes "ABCDEF"))) = true
  /\ range (example_body (bytes "ABCDEF")) 98 102 = bytes "ABCD"
  /\ range (example_body (bytes "ABCDEF")) 98 102 <> bytes "ABCDEF".
Proof. vm_compute. repeat split; discriminate. Qed.

(* ------------------------------------------------------------------ *)
(** ** Committing an upload *)

Module Commit.
Import Upload.

Lemma flash_cmds_shape (cs : list Flash.flash_cmd) (tl : list effect) :
  flash_cmds tl = [] -> flash_cmds (map EFlash cs ++ tl) = cs.
Proof. intros H. induction cs; simpl; [exact H|]. now rewrite IHcs. Qed.

Lemma saved_shape (cs : list Flash.flash_cmd) (tl : list effect) :
  saved (map EFlash cs ++ tl) = saved tl.
Proof. induction cs; simpl; auto. Qed.

Lemma resets_shape (cs : list Flash.flash_cmd) (tl : list effect) :
  resets (map EFlash cs ++ tl) = resets tl.
Proof. induction cs; simpl; auto. Qed.

(** After a successful extraction, [commit_upload] erases the target,
    runs [flash_write] into it, and then, whatever the read-back pass
    reports, saves the updated record, answers 200 and resets. *)
Lemma commit_upload_ok (m : boot_metadata) (fl : Flash.flash_mem) (code : list byte) :
  extraction_ok (extract_bounds code) = true ->
  exists rep : Flash.verify_report,
    let bs := fst (extract_bounds code) in
    let be := snd (extract_bounds code) in
    let T := target_addr m in
    let w := Flash.flash_write (Flash.run_cmds fl (Flash.flash_erase_sector T)) T
               (load_word code bs) (be - bs) in
    commit_upload m fl code
    = {| trace := map EFlash (Flash.flash_erase_sector T ++ fst (fst w))
                  ++ [EVerify rep; ESave (update_metadata m); EResp 200; EStop; EReset];
         next := Halt; meta := update_metadata m; flash := snd (fst w) |}.
Proof.
  intros Hok. unfold commit_upload.
  destruct (extract_bounds code) as [bs be]. simpl in Hok. cbv beta iota zeta. rewrite Hok.
  change (fst (bs, be)) with bs. change (snd (bs, be)) with be.
  destruct (Flash.flash_write (Flash.run_cmds fl (Flash.flash_erase_sector (target_addr m)))
              (target_addr m) (load_word code bs) (be - bs)) as [[c2 fl2] [ev rep]].
  exists rep. reflexivity.
Qed.

End Commit.

Lemma flash_write_cmds_eq (m : Flash.flash_mem) (addr : Z) (src : nat -> Z) (len : Z) :
  fst (fst (Flash.flash_write m addr src len))
  = Flash.EraseSector (Z.land addr (u32 (Z.lnot 4095)))
    :: map (fun i => Flash.ProgramWord (u32 (addr + Z.of_nat i * 4)) (src i))
           (seq 0 (Z.to_nat (u32 (len + 3) / 4))).
Proof. reflexivity. Qed.

Lemma erased_sectors_cons_erase (a : Z) (cs : list Flash.flash_cmd) :
  Flash.erased_sectors (Flash.EraseSector a :: cs) = Flash.sector_base a :: Flash.erased_sectors cs.
Proof. reflexivity. Qed.

Lemma programmed_cons_erase (a : Z) (cs : list Flash.flash_cmd) :
  Flash.programmed (Flash.EraseSector a :: cs) = Flash.programmed cs.
Proof. reflexivity. Qed.

(** The slot bases are sector aligned. *)
Lemma slot_bases_aligned :
  Z.land SLOT_A_ADDRESS (u32 (Z.lnot 4095)) = SLOT_A_ADDRESS
  /\ Z.land SLOT_B_ADDRESS (u32 (Z.lnot 4095)) = SLOT_B_ADDRESS
  /\ Flash.sector_base SLOT_A_ADDRESS = SLOT_A_ADDRESS
  /\ Flash.sector_base SLOT_B_ADDRESS = SLOT_B_ADDRESS.
Proof. vm_compute. repeat split. Qed.

(** C3: after a successful upload the erase and the programmed words go to
    the slot that was not active ([active_slot == 0] targets B, otherwise
    A), the one record persisted has [active_slot] set to the target, the
    target's valid flag set and the other's cleared (the counters kept),
    and exactly one reset is requested, after which the loop halts. *)
Theorem upload_commit_targets_inactive_slot (m : boot_metadata) (fl : Flash.flash_mem)
    (code : list byte) :
  extraction_ok (extract_bounds code) = true ->
  let r := Upload.commit_upload m fl code in
  let T := if active_slot m =? 0 then SLOT_B_ADDRESS else SLOT_A_ADDRESS in
  Flash.erased_sectors (Upload.flash_cmds (Upload.trace r)) = [T; T]
  /\ (exists n, map fst (Flash.programmed (Upload.flash_cmds (Upload.trace r)))
               = map (fun i => u32 (T + Z.of_nat i * 4)) (seq 0 n))
  /\ Upload.saved (Upload.trace r)
     = [if active_slot m =? 0
        then {| active_slot := 1; valid_a := 0; valid_b := 1;
                boot_count := boot_count m; boot_success := boot_success m |}
        else {| active_slot := 0; valid_a := 1; valid_b := 0;
                boot_count := boot_count m; boot_success := boot_success m |}]
  /\ Upload.resets (Upload.trace r) = 1%nat
  /\ Upload.next r = Upload.Halt.
Proof.
  intros Hok. destruct (Commit.commit_upload_ok m fl code Hok) as [rep H].
  cbv zeta in H |- *. rewrite H. clear H.
  cbn [Upload.trace Upload.next].
  rewrite Commit.flash_cmds_shape by reflexivity.
  rewrite Commit.saved_shape, Commit.resets_shape.
  rewrite flash_write_cmds_eq.
  unfold Flash.flash_erase_sector.
  destruct slot_bases_aligned as (HA & HB & HsA & HsB).
  unfold Upload.target_addr, Upload.update_metadata.
  destruct (active_slot m =? 0);
    (split; [|split; [|split; [reflexivity|split; reflexivity]]]).
  all: cbn [app]; rewrite ?erased_sectors_cons_erase, ?programmed_cons_erase.
  - rewrite erased_sectors_programs, HB, HsB. reflexivity.
  - eexists. rewrite programmed_programs, map_map. reflexivity.
  - rewrite erased_sectors_programs, HA, HsA. reflexivity.
  - eexists. rewrite programmed_programs, map_map. reflexivity.
Qed.

Lemma upload_commit_targets_inactive_slot_witness :
  extraction_ok (extract_bounds (example_body (bytes "ABCDEFGH"))) = true
  /\ Upload.saved (Upload.trace (Upload.commit_upload m0 (fun _ => 0) (example_body (bytes "ABCDEFGH"))))
     = [{| active_slot := 1; valid_a := 0; valid_b := 1; boot_count := 0; boot_success := 0 |}].
Proof.
  split; [vm_compute; reflexivity|].
  apply (upload_commit_targets_inactive_slot m0 (fun _ => 0) (example_body (bytes "ABCDEFGH"))).
  vm_compute. reflexivity.
Defined.

Lemma verify_reports_in (r : Flash.verify_report) (tr : list Upload.effect) :
  In r (Upload.verify_reports tr) -> In (Upload.EVerify r) tr.
Proof.
  unfold Upload.verify_reports. rewrite in_flat_map.
  intros (e & He & Hr). destruct e; simpl in Hr; try contradiction.
  destruct Hr as [->|[]]. exact He.
Qed.

(** C1 (counterexample): on that upload the range written is 4100 bytes
    (1025 words); word 1024 lies in the sector at [0x60113000], which is
    not erased, so the read-back pass reports a mismatch at word 1024 --
    and the updated record [{active_slot:1, valid_a:0, valid_b:1}] is
    persisted all the same. *)
Lemma verify_mismatch_still_commits :
  Upload.verify_reports (Upload.trace (Upload.commit_upload m0 old_flash big_body))
  = [Flash.VerifyFailed 1024 0x01010101 0]
  /\ Upload.saved (Upload.trace (Upload.commit_upload m0 old_flash big_body))
     = [{| active_slot := 1; valid_a := 0; valid_b := 1; boot_count := 0; boot_success := 0 |}].
Proof. split; vm_compute; reflexivity. Qed.

(** C1 (amended): on the upload path the metadata update does not depend
    on the read-back pass: once a payload is extracted and written, the
    flipped record is persisted (and then 200, reset) even when the pass
    reports a mismatch. *)
Theorem metadata_saved_despite_mismatch (m : boot_metadata) (fl : Flash.flash_mem)
    (code : list byte) (i : nat) (expected got : Z) :
  extraction_ok (extract_bounds code) = true ->
  In (Upload.EVerify (Flash.VerifyFailed i expected got))
     (Upload.trace (Upload.commit_upload m fl code)) ->
  Upload.saved (Upload.trace (Upload.commit_upload m fl code)) = [Upload.update_metadata m]
  /\ Upload.meta (Upload.commit_upload m fl code) = Upload.update_metadata m
  /\ exists cs, Upload.trace (Upload.commit_upload m fl code)
       = map Upload.EFlash cs
         ++ [Upload.EVerify (Flash.VerifyFailed i expected got);
             Upload.ESave (Upload.update_metadata m); Upload.EResp 200; Upload.EStop;
             Upload.EReset].
Proof.
  intros Hok Hin. destruct (Commit.commit_upload_ok m fl code Hok) as [rep H].
  cbv zeta in H. rewrite H in Hin |- *. clear H. cbn [Upload.trace Upload.meta].
  rewrite Commit.saved_shape.
  assert (rep = Flash.VerifyFailed i expected got) as ->.
  { apply in_app_or in Hin as [Hin|Hin].
    - apply in_map_iff in Hin as (c & Hc & _). discriminate.
    - simpl in Hin. intuition congruence. }
  split; [reflexivity|split; [reflexivity|]].
  eexists. reflexivity.
Qed.

Lemma metadata_saved_despite_mismatch_witness :
  Upload.saved (Upload.trace (Upload.commit_upload m0 old_flash big_body))
  = [Upload.update_metadata m0].
Proof.
  apply (metadata_saved_despite_mismatch m0 old_flash big_body 1024 0x01010101 0).
  - vm_compute. reflexivity.
  - apply verify_reports_in.
    assert (E : Upload.verify_reports (Upload.trace (Upload.commit_upload m0 old_flash big_body))
                = [Flash.VerifyFailed 1024 0x01010101 0]) by (vm_compute; reflexivity).
    rewrite E. left. reflexivity.
Defined.

(* ------------------------------------------------------------------ *)
(** ** Connection outcomes *)

(** Every exit of the upload branch that returns to the accept loop sends
    one status line and closes, with no flash command, no metadata write,
    and the metadata and flash left as they were. *)
Lemma after_body_continue_unchanged (m : boot_metadata) (fl : Flash.flash_mem)
    (st : Upload.body_state) (w : Net.world) :
  Upload.next (Upload.after_body m fl st w) = Upload.Continue ->
  Upload.meta (Upload.after_body m fl st w) = m
  /\ Upload.flash (Upload.after_body m fl st w) = fl
  /\ exists s, Upload.trace (Upload.after_body m fl st w) = [Upload.EResp s; Upload.EStop].
Proof.
  unfold Upload.after_body, Upload.commit_upload.
  destruct (Upload.upload_too_large st); [intros _; cbn; eauto|].
  destruct (Net.millis w) as [t w1].
  destruct (t >=? Upload.timeout st); [intros _; cbn; eauto|].
  destruct (extract_bounds (Upload.code st)) as [bs be].
  destruct ((bs >=? 0) && (be >? bs)); [|intros _; cbn; eauto].
  match goal with |- context [Flash.flash_write ?a ?b ?c ?d] =>
    destruct (Flash.flash_write a b c d) as [[c2 fl2] [idx rep]] end.
  cbn [Upload.next]. discriminate.
Qed.

(** C6: the body loop ends when the peer has closed and its buffered bytes
    are consumed, not when [Content-Length] bytes have arrived.  A request
    declaring 115 bytes whose peer sends 113 and closes (well inside the
    10 s window and the 1 MiB limit) has its partial body parsed and
    flashed: two flash erases and two programs, the flipped metadata
    saved, [200], reset. *)
Theorem partial_body_is_flashed :
  Upload.headers_loop 100 w_short 0
    = Some (115, {| Net.clock := 0; Net.stream := sent_at 0 short_body; Net.fin := Some 0 |})
  /\ option_map (fun p => (Upload.upload_bytes (fst p), Upload.upload_too_large (fst p)))
       (Upload.read_body 100 115
          {| Net.clock := 0; Net.stream := sent_at 0 short_body; Net.fin := Some 0 |})
     = Some (113, false)
  /\ option_map (fun r => (Upload.responses (Upload.trace r),
                          List.length (Upload.flash_cmds (Upload.trace r)),
                          Upload.saved (Upload.trace r), Upload.next r))
       (Upload.handle_upload 100 m0 old_flash w_short)
     = Some ([200], 4%nat, [Upload.update_metadata m0], Upload.Halt).
Proof. split; [|split]; vm_compute; reflexivity. Qed.

(** C7: the 10 s stall timer is [millis() + 10000] in 32 bits and is
    compared with [<] and [>=], so within 10 s of the [millis()] wrap the
    timer has already expired.  A 5-byte body that is not multipart, sent
    at once, is not read at all and gets [408]; the same request shortly
    after power-on gets [400]. *)
Theorem millis_wrap_turns_400_into_408 :
  option_map Upload.trace (Upload.handle_upload 100 m0 old_flash w_hello_wrap)
    = Some [Upload.EResp 408; Upload.EStop]
  /\ option_map (fun p => Upload.upload_bytes (fst p))
       (Upload.read_body 100 5
          {| Net.clock := WRAP_CLOCK; Net.stream := sent_at 0 (bytes "hello"); Net.fin := None |})
     = Some 0
  /\ option_map Upload.trace (Upload.handle_upload 100 m0 old_flash w_hello)
    = Some [Upload.EResp 400; Upload.EStop].
Proof. split; [|split]; vm_compute; reflexivity. Qed.

(** C10: without a [Content-Length] header the length stays [0], no body
    byte is read and extraction fails on the empty buffer: [400] shortly
    after power-on; but within 10 s of the [millis()] wrap the same
    request gets [408]. *)
Theorem no_content_length_wrap_408 :
  Upload.headers_loop 100 w_nolen_wrap 0
    = Some (0, {| Net.clock := WRAP_CLOCK; Net.stream := []; Net.fin := None |})
  /\ option_map Upload.trace (Upload.handle_upload 100 m0 old_flash w_nolen_wrap)
    = Some [Upload.EResp 408; Upload.EStop]
  /\ option_map Upload.trace (Upload.handle_upload 100 m0 old_flash w_nolen)
    = Some [Upload.EResp 400; Upload.EStop].
Proof. split; [|split]; vm_compute; reflexivity. Qed.

(* ------------------------------------------------------------------ *)
(** ** Further properties of the code *)

Lemma byte_of_val (z : Z) : Z.of_N (Byte.to_N (Meta.byte_of z)) = z mod 256.
Proof.
  unfold Meta.byte_of. pose proof (Z.mod_pos_bound z 256 ltac:(lia)) as Hb.
  destruct (Byte.of_N (Z.to_N (z mod 256))) eqn:E.
  - apply Byte.to_of_N in E. rewrite E, Z2N.id; lia.
  - apply Byte.of_N_None_iff in E. apply N2Z.inj_lt in E. rewrite Z2N.id in E; lia.
Qed.

Lemma le32_val (z : Z) : 0 <= z < 2 ^ 32 ->
  Z.of_N (Byte.to_N (Meta.byte_of z)) + Z.of_N (Byte.to_N (Meta.byte_of (z / 256))) * 2 ^ 8
  + Z.of_N (Byte.to_N (Meta.byte_of (z / 256 / 256))) * 2 ^ 16
  + Z.of_N (Byte.to_N (Meta.byte_of (z / 256 / 256 / 256))) * 2 ^ 24 = z.
Proof.
  intros Hz. rewrite !byte_of_val.
  pose proof (Z.div_mod z 256 ltac:(lia)).
  pose proof (Z.div_mod (z / 256) 256 ltac:(lia)).
  pose proof (Z.div_mod (z / 256 / 256) 256 ltac:(lia)).
  pose proof (Z.div_mod (z / 256 / 256 / 256) 256 ltac:(lia)).
  pose proof (Z.mod_pos_bound z 256 ltac:(lia)).
  pose proof (Z.mod_pos_bound (z / 256) 256 ltac:(lia)).
  pose proof (Z.mod_pos_bound (z / 256 / 256) 256 ltac:(lia)).
  pose proof (Z.mod_pos_bound (z / 256 / 256 / 256) 256 ltac:(lia)).
  assert (0 <= z / 256 / 256 / 256 / 256) by (repeat apply Z.div_pos; lia).
  lia.
Qed.

Lemma encode_length (m : boot_metadata) : List.length (Meta.encode m) = Meta.META_SIZE.
Proof. reflexivity. Qed.

Lemma decode_encode (m : boot_metadata) :
  Meta.fields_u32 m = true -> Meta.decode (Meta.encode m) = m.
Proof.
  destruct m as [a va vb bc bs]. unfold Meta.fields_u32, Meta.is_u32. cbn [active_slot valid_a valid_b boot_count boot_success].
  intros H. repeat rewrite andb_true_iff in H. rewrite !Z.leb_le, !Z.ltb_lt in H.
  unfold Meta.decode, load_word. cbn.
  rewrite !le32_val by tauto. reflexivity.
Qed.

(** When no metadata file exists yet, saving metadata whose fields fit in
    32 bits and loading it back gives the same metadata: [save_metadata]
    writes the 20-byte little-endian image and [load_metadata] decodes it. *)
Theorem load_after_first_save (v : Meta.volume) (m : boot_metadata) :
  Meta.meta_bin v = None -> Meta.fields_u32 m = true ->
  Meta.load_metadata (Meta.save_metadata v m) = Some m.
Proof.
  intros Hv Hm. unfold Meta.load_metadata, Meta.save_metadata. rewrite Hv.
  cbn [Meta.meta_bin app]. rewrite encode_length, Nat.eqb_refl, decode_encode by exact Hm.
  reflexivity.
Qed.

Lemma save_length (v : Meta.volume) (m : boot_metadata) (b : list byte) :
  Meta.meta_bin v = Some b ->
  Meta.meta_bin (Meta.save_metadata v m) = Some (b ++ Meta.encode m).
Proof. intros Hv. unfold Meta.save_metadata. now rewrite Hv. Qed.

Lemma append_load_fails (v : Meta.volume) (m : boot_metadata) (b : list byte) :
  Meta.meta_bin v = Some b -> b <> [] ->
  Meta.load_metadata (Meta.save_metadata v m) = None.
Proof.
  intros Hv Hb. unfold Meta.load_metadata. rewrite (save_length v m b Hv).
  rewrite length_app, encode_length.
  destruct b; [congruence|]. cbn [List.length]. unfold Meta.META_SIZE.
  destruct (Nat.eqb_spec (S (List.length b0) + 20) 20); [lia|reflexivity].
Qed.

Lemma boot_decision_zero (mem : Flash.flash_mem) :
  Boot.boot_decision Meta.zero_meta mem = Boot.EnterRecovery.
Proof. reflexivity. Qed.

(** On a volume without a metadata file, [setup] writes the zeroed
    metadata, reads it back with success, and the boot decision enters
    recovery mode. *)
Theorem fresh_volume_boots_recovery (v : Meta.volume) (mem : Flash.flash_mem) :
  Meta.meta_bin v = None ->
  Meta.init_metadata v
    = (Meta.zero_meta, {| Meta.meta_bin := Some (Meta.encode Meta.zero_meta) |}, Meta.Reinit true)
  /\ fst (Meta.boot v mem) = Boot.EnterRecovery.
Proof.
  intros Hv. assert (E : Meta.init_metadata v
    = (Meta.zero_meta, {| Meta.meta_bin := Some (Meta.encode Meta.zero_meta) |}, Meta.Reinit true)).
  { unfold Meta.init_metadata, Meta.load_metadata, Meta.save_metadata. rewrite Hv. reflexivity. }
  split; [exact E|]. unfold Meta.boot. rewrite E. reflexivity.
Qed.

(** When a non-empty metadata file exists, [setup] either keeps it (it is
    exactly 20 bytes and its active slot is not 0xFFFFFFFF) or appends the
    zeroed metadata to it, and then its read-back check fails. *)
Theorem existing_file_kept_or_reinit_fails (v : Meta.volume) (b : list byte) :
  Meta.meta_bin v = Some b -> b <> [] ->
  (List.length b = Meta.META_SIZE /\ active_slot (Meta.decode b) <> 0xFFFFFFFF
   /\ Meta.init_metadata v = (Meta.decode b, v, Meta.Loaded))
  \/ Meta.init_metadata v
     = (Meta.zero_meta, {| Meta.meta_bin := Some (b ++ Meta.encode Meta.zero_meta) |},
        Meta.Reinit false).
Proof.
  intros Hv Hb. unfold Meta.init_metadata.
  assert (Hr : Meta.load_metadata (Meta.save_metadata v Meta.zero_meta) = None
               -> (Meta.zero_meta, Meta.save_metadata v Meta.zero_meta,
                   Meta.Reinit match Meta.load_metadata (Meta.save_metadata v Meta.zero_meta) with
                               | Some vm => active_slot vm =? 0 | None => false end)
                  = (Meta.zero_meta, {| Meta.meta_bin := Some (b ++ Meta.encode Meta.zero_meta) |},
                     Meta.Reinit false)).
  { intros ->. unfold Meta.save_metadata. rewrite Hv. reflexivity. }
  assert (Hl0 : Meta.load_metadata v
    = if (List.length b =? Meta.META_SIZE)%nat then Some (Meta.decode b) else None).
  { unfold Meta.load_metadata. now rewrite Hv. }
  rewrite Hl0.
  destruct (Nat.eqb_spec (List.length b) Meta.META_SIZE) as [Hl|Hl].
  - destruct (Z.eqb_spec (active_slot (Meta.decode b)) 0xFFFFFFFF) as [Ha|Ha].
    + right. apply Hr. exact (append_load_fails v _ b Hv Hb).
    + left. auto.
  - right. apply Hr. exact (append_load_fails v _ b Hv Hb).
Qed.

Lemma init_volume_nonempty (v : Meta.volume) :
  exists b, Meta.meta_bin (snd (fst (Meta.init_metadata v))) = Some b /\ b <> [].
Proof.
  unfold Meta.init_metadata.
  assert (Hs : exists b, Meta.meta_bin (Meta.save_metadata v Meta.zero_meta) = Some b /\ b <> []).
  { unfold Meta.save_metadata. cbn [Meta.meta_bin].
    eexists; split; [reflexivity|]. destruct (match Meta.meta_bin v with Some b => b | None => [] end);
    discriminate. }
  destruct (Meta.load_metadata v) as [m|] eqn:E.
  - destruct (active_slot m =? 0xFFFFFFFF); [exact Hs|].
    cbn [fst snd]. unfold Meta.load_metadata in E.
    destruct (Meta.meta_bin v) as [b|]; [|discriminate].
    exists b. split; [reflexivity|]. intros ->. discriminate.
  - exact Hs.
Qed.

Lemma persist_app (v : Meta.volume) (t1 t2 : list Upload.effect) :
  Meta.persist v (t1 ++ t2) = Meta.persist (Meta.persist v t1) t2.
Proof. unfold Meta.persist. apply fold_left_app. Qed.

Lemma persist_flash (v : Meta.volume) (cs : list Flash.flash_cmd) :
  Meta.persist v (map Upload.EFlash cs) = v.
Proof.
  revert v; induction cs as [|c cs IH]; intros v; [reflexivity|]. exact (IH v).
Qed.

Lemma after_body_halt (m : boot_metadata) (fl : Flash.flash_mem)
    (st : Upload.body_state) (w : Net.world) :
  Upload.next (Upload.after_body m fl st w) = Upload.Halt ->
  exists cs rep, Upload.trace (Upload.after_body m fl st w)
    = map Upload.EFlash cs
      ++ [Upload.EVerify rep; Upload.ESave (Upload.update_metadata m); Upload.EResp 200;
          Upload.EStop; Upload.EReset].
Proof.
  unfold Upload.after_body, Upload.commit_upload.
  destruct (Upload.upload_too_large st); [discriminate|].
  destruct (Net.millis w) as [t w1].
  destruct (t >=? Upload.timeout st); [discriminate|].
  destruct (extract_bounds (Upload.code st)) as [bs be].
  destruct ((bs >=? 0) && (be >? bs)); [|discriminate].
  match goal with |- context [Flash.flash_write ?a ?b ?c ?d] =>
    destruct (Flash.flash_write a b c d) as [[c2 fl2] [idx rep]] end.
  intros _. cbn [Upload.trace]. eauto.
Qed.

Lemma handle_upload_after_body (fuel : nat) (m : boot_metadata) (fl : Flash.flash_mem)
    (w : Net.world) (r : Upload.result) :
  Upload.handle_upload fuel m fl w = Some r ->
  exists st w2, r = Upload.after_body m fl st w2.
Proof.
  unfold Upload.handle_upload.
  destruct (Upload.headers_loop fuel w 0) as [[cl w1]|]; [|discriminate].
  destruct (Upload.read_body fuel cl w1) as [[st w2]|]; [|discriminate].
  intros H. injection H as <-. eauto.
Qed.

(** After [setup] and an upload that the code commits, the saved file no
    longer loads at the next boot: the boot after the reset enters
    recovery mode whatever the flash holds. *)
Theorem upload_then_boot_enters_recovery (v : Meta.volume) (fl mem : Flash.flash_mem)
    (fuel : nat) (w : Net.world) :
  option_map Upload.next
    (Upload.handle_upload fuel (fst (fst (Meta.init_metadata v))) fl w) = Some Upload.Halt ->
  option_map (fun r => fst (Meta.boot (Meta.persist (snd (fst (Meta.init_metadata v)))
                                         (Upload.trace r)) mem))
    (Upload.handle_upload fuel (fst (fst (Meta.init_metadata v))) fl w)
  = Some Boot.EnterRecovery.
Proof.
  destruct (init_volume_nonempty v) as (b & Hb & Hne).
  destruct (Meta.init_metadata v) as [[m v1] rep0]. cbn [fst snd] in Hb |- *.
  destruct (Upload.handle_upload fuel m fl w) as [r|] eqn:E; [|discriminate].
  cbn [option_map]. intros Hn. injection Hn as Hn. f_equal.
  destruct (handle_upload_after_body fuel m fl w r E) as (st & w2 & ->).
  destruct (after_body_halt m fl st w2 Hn) as (cs & rp & ->).
  rewrite persist_app, persist_flash. cbn [Meta.persist fold_left].
  set (v2 := Meta.save_metadata v1 (Upload.update_metadata m)).
  assert (Hl : Meta.load_metadata v2 = None) by exact (append_load_fails v1 _ b Hb Hne).
  unfold Meta.boot, Meta.init_metadata. rewrite Hl. reflexivity.
Qed.

Lemma upload_then_boot_enters_recovery_witness :
  option_map (fun r => fst (Meta.boot (Meta.persist (snd (fst (Meta.init_metadata
                                         {| Meta.meta_bin := None |}))) (Upload.trace r)) old_flash))
    (Upload.handle_upload 100 (fst (fst (Meta.init_metadata {| Meta.meta_bin := None |})))
       old_flash w_short)
  = Some Boot.EnterRecovery.
Proof.
  apply (upload_then_boot_enters_recovery {| Meta.meta_bin := None |} old_flash old_flash 100 w_short).
  vm_compute. reflexivity.
Defined.

Lemma aligned_addr_eq (a : Z) : 0 <= a < 2 ^ 32 ->
  Z.land a (u32 (Z.lnot 4095)) = a - a mod 4096.
Proof.
  intros Ha. unfold u32. rewrite <- Z.land_ones by lia. rewrite Z.land_assoc.
  rewrite <- Z.ldiff_land. change 4095 with (Z.ones 12).
  rewrite Z.ldiff_ones_r, Z.land_ones by lia.
  rewrite Z.shiftl_mul_pow2, Z.shiftr_div_pow2 by lia. change (2 ^ 12) with 4096.
  pose proof (Z.mul_div_le a 4096 ltac:(lia)). pose proof (Z.div_pos a 4096 ltac:(lia) ltac:(lia)).
  rewrite Z.mod_small by lia. rewrite (Z.mod_eq a 4096) by lia. lia.
Qed.

Lemma run_cmds_frame (cs : list Flash.flash_cmd) (m : Flash.flash_mem) (x : Z) :
  Forall (fun c => forall m0, Flash.apply_cmd m0 c x = m0 x) cs ->
  Flash.run_cmds m cs x = m x.
Proof.
  revert m; induction cs as [|c cs IH]; intros m H; [reflexivity|].
  inversion H as [|? ? Hc Hcs]; subst.
  change (Flash.run_cmds (Flash.apply_cmd m c) cs x = m x).
  rewrite IH by exact Hcs. apply Hc.
Qed.

Lemma run_cmds_app (m : Flash.flash_mem) (c1 c2 : list Flash.flash_cmd) :
  Flash.run_cmds m (c1 ++ c2) = Flash.run_cmds (Flash.run_cmds m c1) c2.
Proof. unfold Flash.run_cmds. apply fold_left_app. Qed.

Lemma run_cmds_cons (m : Flash.flash_mem) (c : Flash.flash_cmd) (cs : list Flash.flash_cmd) :
  Flash.run_cmds m (c :: cs) = Flash.run_cmds (Flash.apply_cmd m c) cs.
Proof. reflexivity. Qed.

Lemma program_elsewhere (a w x : Z) (m0 : Flash.flash_mem) :
  x <> a -> Flash.apply_cmd m0 (Flash.ProgramWord a w) x = m0 x.
Proof. intros H. cbn. destruct (Z.eqb_spec x a); [congruence|reflexivity]. Qed.

Lemma programs_frame (addr : Z) (src : nat -> Z) (l : list nat) (x : Z) (m : Flash.flash_mem) :
  (forall j, In j l -> x <> u32 (addr + Z.of_nat j * 4)) ->
  Flash.run_cmds m (map (fun i => Flash.ProgramWord (u32 (addr + Z.of_nat i * 4)) (src i)) l) x
  = m x.
Proof.
  intros H. apply run_cmds_frame. apply Forall_forall. intros c Hc.
  apply in_map_iff in Hc as (j & <- & Hj). intros m0. apply program_elsewhere. auto.
Qed.

Lemma u32_id (z : Z) : 0 <= z < 2 ^ 32 -> u32 z = z.
Proof. intros. unfold u32. now apply Z.mod_small. Qed.

(** The value a write leaves at its [i]-th word, when its range does not
    wrap: the source word ANDed into what the erase left there. *)
Lemma flash_write_at (m : Flash.flash_mem) (addr : Z) (src : nat -> Z) (len : Z) (i : nat) :
  0 <= addr -> 0 <= len <= 2 ^ 32 - 4 -> addr + 4 * ((len + 3) / 4) <= 2 ^ 32 ->
  (i < Z.to_nat ((len + 3) / 4))%nat ->
  snd (fst (Flash.flash_write m addr src len)) (addr + Z.of_nat i * 4)
  = Z.land (Flash.apply_cmd m (Flash.EraseSector (Z.land addr (u32 (Z.lnot 4095))))
              (addr + Z.of_nat i * 4)) (src i).
Proof.
  intros H0 Hl Hr Hi. unfold Flash.flash_write. cbv zeta. cbn [fst snd].
  rewrite (u32_id (len + 3)) by lia.
  set (n := Z.to_nat ((len + 3) / 4)) in *.
  assert (Hs : seq 0 n = seq 0 i ++ i :: seq (S i) (n - S i)).
  { replace n with (i + S (n - S i))%nat at 1 by lia. rewrite seq_app. reflexivity. }
  rewrite Hs, map_app. cbn [map]. unfold Flash.flash_erase_sector.
  rewrite !run_cmds_app, run_cmds_cons.
  assert (Hn : Z.of_nat n = (len + 3) / 4) by (unfold n; rewrite Z2Nat.id; [lia| apply Z.div_pos; lia]).
  assert (Haddr : forall j, (j < n)%nat -> u32 (addr + Z.of_nat j * 4) = addr + Z.of_nat j * 4).
  { intros j Hj. apply u32_id. lia. }
  rewrite programs_frame.
  2:{ intros j Hj. apply in_seq in Hj. rewrite Haddr by lia. lia. }
  rewrite Haddr by lia. cbn [Flash.apply_cmd]. rewrite Z.eqb_refl.
  rewrite programs_frame.
  2:{ intros j Hj. apply in_seq in Hj. rewrite Haddr by lia. lia. }
  reflexivity.
Qed.


(** A [flash_write] whose words all lie in one sector, with 32-bit source
    words, reports a successful verification and leaves each source word
    at its address. *)
Theorem flash_write_in_sector (m : Flash.flash_mem) (addr : Z) (src : nat -> Z) (len : Z) :
  0 <= addr < 2 ^ 32 -> 0 <= len ->
  addr mod 4096 + 4 * ((len + 3) / 4) <= 4096 ->
  (forall i, (i < Z.to_nat ((len + 3) / 4))%nat -> 0 <= src i < 2 ^ 32) ->
  snd (snd (Flash.flash_write m addr src len)) = Flash.VerifyOk
  /\ forall i, (i < Z.to_nat ((len + 3) / 4))%nat ->
       snd (fst (Flash.flash_write m addr src len)) (addr + Z.of_nat i * 4) = src i.
Proof.
  intros Ha Hl Hs Hsrc.
  pose proof (Z.mod_pos_bound addr 4096 ltac:(lia)) as Hmb.
  assert (Hq : 0 <= (len + 3) / 4) by (apply Z.div_pos; lia).
  assert (Hlen : len + 3 < 4 * ((len + 3) / 4) + 4)
    by (pose proof (Z.mod_pos_bound (len + 3) 4 ltac:(lia)); pose proof (Z.div_mod (len + 3) 4 ltac:(lia)); lia).
  (* the sector base is a multiple of 4096 below 2^32 *)
  assert (Hb : 0 <= addr - addr mod 4096 /\ addr - addr mod 4096 + 4096 <= 2 ^ 32).
  { rewrite (Z.mod_eq addr 4096) by lia.
    pose proof (Z.div_pos addr 4096 ltac:(lia) ltac:(lia)).
    assert (addr / 4096 < 2 ^ 20) by (apply Z.div_lt_upper_bound; lia). lia. }
  assert (Hval : forall i, (i < Z.to_nat ((len + 3) / 4))%nat ->
            snd (fst (Flash.flash_write m addr src len)) (addr + Z.of_nat i * 4) = src i).
  { intros i Hi. assert (Hi' : Z.of_nat i < (len + 3) / 4) by lia.
    rewrite flash_write_at by lia.
    rewrite aligned_addr_eq by lia. cbn [Flash.apply_cmd].
    unfold Flash.sector_base, Flash.SECTOR_SIZE.
    assert (Hz : (addr - addr mod 4096) mod 4096 = 0)
      by (rewrite Zminus_mod, Zmod_mod, Z.sub_diag; reflexivity).
    rewrite Hz, Z.sub_0_r.
    destruct ((addr - addr mod 4096 <=? addr + Z.of_nat i * 4)
              && (addr + Z.of_nat i * 4 <? addr - addr mod 4096 + 4096)) eqn:E.
    - change (2 ^ 32 - 1) with (Z.ones 32). rewrite Z.land_comm, Z.land_ones by lia.
      apply Z.mod_small. apply Hsrc. exact Hi.
    - exfalso. apply andb_false_iff in E as [E|E]; [apply Z.leb_gt in E|apply Z.ltb_ge in E]; lia. }
  split; [|exact Hval].
  unfold Flash.flash_write at 1. cbv zeta. cbn [snd].
  rewrite (u32_id (len + 3)) by lia. unfold Flash.verify.
  rewrite verify_from_all_match; [reflexivity|].
  intros j Hj.
  assert (Hj' : Z.of_nat j < (len + 3) / 4) by (rewrite <- (Z2Nat.id ((len + 3) / 4)) by lia; lia).
  rewrite (u32_id (addr + Z.of_nat j * 4)) by lia.
  pose proof (Hval j ltac:(lia)) as Hv. unfold Flash.flash_write in Hv. cbv zeta in Hv.
  cbn [fst snd] in Hv. rewrite (u32_id (len + 3)) in Hv by lia. exact Hv.
Qed.

Lemma erase_elsewhere (a x : Z) (m0 : Flash.flash_mem) :
  ~ (Flash.sector_base a <= x < Flash.sector_base a + 4096) ->
  Flash.apply_cmd m0 (Flash.EraseSector a) x = m0 x.
Proof.
  intros H. cbn. unfold Flash.SECTOR_SIZE.
  destruct ((Flash.sector_base a <=? x) && (x <? Flash.sector_base a + 4096)) eqn:E; [|reflexivity].
  apply andb_true_iff in E as [E1 E2]. apply Z.leb_le in E1. apply Z.ltb_lt in E2. lia.
Qed.

Lemma sector_base_aligned (a : Z) : 0 <= a < 2 ^ 32 ->
  Flash.sector_base (Z.land a (u32 (Z.lnot 4095))) = Flash.sector_base a.
Proof.
  intros Ha. rewrite aligned_addr_eq by exact Ha. unfold Flash.sector_base, Flash.SECTOR_SIZE.
  assert (Hz : (a - a mod 4096) mod 4096 = 0)
    by (rewrite Zminus_mod, Zmod_mod, Z.sub_diag; reflexivity).
  rewrite Hz. lia.
Qed.

Lemma flash_write_outside (m : Flash.flash_mem) (addr : Z) (src : nat -> Z) (len x : Z) :
  0 <= addr < 2 ^ 32 -> 0 <= len <= 2 ^ 32 - 4 ->
  ~ (Flash.sector_base addr <= x < Flash.sector_base addr + 4096) ->
  (forall i, (i < Z.to_nat ((len + 3) / 4))%nat -> x <> u32 (addr + Z.of_nat i * 4)) ->
  snd (fst (Flash.flash_write m addr src len)) x = m x.
Proof.
  intros Ha Hl Hx Hp. unfold Flash.flash_write. cbv zeta. cbn [fst snd].
  rewrite (u32_id (len + 3)) by lia.
  rewrite run_cmds_app, programs_frame.
  2:{ intros j Hj. apply in_seq in Hj. apply Hp. lia. }
  unfold Flash.flash_erase_sector. rewrite run_cmds_cons. cbn [Flash.run_cmds fold_left].
  apply erase_elsewhere. rewrite sector_base_aligned by exact Ha. exact Hx.
Qed.

Lemma commit_upload_flash (m : boot_metadata) (fl : Flash.flash_mem) (code : list byte) (s e : Z) :
  extract_bounds code = (s, e) -> 0 <= s -> s < e ->
  Upload.flash (Upload.commit_upload m fl code)
  = snd (fst (Flash.flash_write (Flash.apply_cmd fl (Flash.EraseSector (Upload.target_addr m)))
                (Upload.target_addr m) (load_word code s) (e - s))).
Proof.
  intros Hx Hs He. unfold Upload.commit_upload. rewrite Hx.
  replace ((s >=? 0) && (e >? s)) with true by (symmetry; apply andb_true_iff; lia).
  cbv zeta. unfold Flash.flash_erase_sector.
  change (Flash.run_cmds fl [Flash.EraseSector (Upload.target_addr m)])
    with (Flash.apply_cmd fl (Flash.EraseSector (Upload.target_addr m))).
  destruct (Flash.flash_write _ _ _ _) as [[c2 fl2] [idx rep]]. reflexivity.
Qed.

Lemma commit_upload_not_ok (m : boot_metadata) (fl : Flash.flash_mem) (code : list byte) (s e : Z) :
  extract_bounds code = (s, e) -> ~ (0 <= s /\ s < e) ->
  Upload.flash (Upload.commit_upload m fl code) = fl.
Proof.
  intros Hx Hs. unfold Upload.commit_upload. rewrite Hx.
  replace ((s >=? 0) && (e >? s)) with false; [reflexivity|].
  symmetry. apply andb_false_iff. destruct (Z.leb_spec 0 s); [right|left; lia].
  rewrite Z.gtb_ltb. apply Z.ltb_ge. lia.
Qed.

Lemma sector_base_slots :
  Flash.sector_base SLOT_A_ADDRESS = SLOT_A_ADDRESS
  /\ Flash.sector_base SLOT_B_ADDRESS = SLOT_B_ADDRESS.
Proof. split; reflexivity. Qed.

Lemma commit_frame (m : boot_metadata) (fl : Flash.flash_mem) (code : list byte) (s e x : Z) :
  extract_bounds code = (s, e) -> e - s <= Upload.MAX_UPLOAD_SIZE ->
  ~ (Upload.target_addr m <= x < Upload.target_addr m + 4096) ->
  (forall i, Z.of_nat i < (e - s + 3) / 4 -> x <> Upload.target_addr m + Z.of_nat i * 4) ->
  Upload.flash (Upload.commit_upload m fl code) x = fl x.
Proof.
  intros Hx Hle Hs Hp.
  assert (HT : Upload.target_addr m = SLOT_A_ADDRESS \/ Upload.target_addr m = SLOT_B_ADDRESS)
    by (unfold Upload.target_addr; destruct (active_slot m =? 0); auto).
  destruct (Z.leb_spec 0 s); [destruct (Z.ltb_spec s e)|].
  2,3: rewrite (commit_upload_not_ok m fl code s e Hx) by lia; reflexivity.
  rewrite (commit_upload_flash m fl code s e Hx) by lia.
  assert (Hq : 0 <= (e - s + 3) / 4) by (apply Z.div_pos; lia).
  assert (Hq2 : 4 * ((e - s + 3) / 4) <= e - s + 3) by (apply Z.mul_div_le; lia).
  rewrite flash_write_outside.
  - apply erase_elsewhere.
    destruct HT as [HT | HT]; rewrite HT in *;
      [rewrite (proj1 sector_base_slots) | rewrite (proj2 sector_base_slots)]; exact Hs.
  - destruct HT as [HT | HT]; rewrite HT; unfold SLOT_A_ADDRESS, SLOT_B_ADDRESS; lia.
  - unfold Upload.MAX_UPLOAD_SIZE in Hle. lia.
  - destruct HT as [HT | HT]; rewrite HT in *;
      [rewrite (proj1 sector_base_slots) | rewrite (proj2 sector_base_slots)]; exact Hs.
  - intros i Hi. assert (Hi' : Z.of_nat i < (e - s + 3) / 4)
      by (rewrite <- (Z2Nat.id ((e - s + 3) / 4)) by lia; lia).
    rewrite u32_id.
    + apply Hp. exact Hi'.
    + unfold Upload.MAX_UPLOAD_SIZE in Hle.
      destruct HT as [HT | HT]; rewrite HT; unfold SLOT_A_ADDRESS, SLOT_B_ADDRESS; lia.
Qed.

(** A committed upload never changes the flash below slot B when slot A is
    active, and, when slot B is active and the extracted firmware fits in
    slot A, never changes the flash outside slot A. *)
Theorem upload_keeps_active_slot (m : boot_metadata) (fl : Flash.flash_mem) (code : list byte)
    (s e : Z) :
  extract_bounds code = (s, e) -> e - s <= Upload.MAX_UPLOAD_SIZE ->
  (active_slot m = 0 -> forall x, x < SLOT_B_ADDRESS ->
     Upload.flash (Upload.commit_upload m fl code) x = fl x)
  /\ (active_slot m <> 0 -> e - s <= SLOT_B_ADDRESS - SLOT_A_ADDRESS ->
     forall x, x < SLOT_A_ADDRESS \/ SLOT_B_ADDRESS <= x ->
     Upload.flash (Upload.commit_upload m fl code) x = fl x).
Proof.
  intros Hx Hle. split.
  - intros Ha x Hxb. assert (HT : Upload.target_addr m = SLOT_B_ADDRESS)
      by (unfold Upload.target_addr; now rewrite Ha).
    apply (commit_frame m fl code s e x Hx Hle); rewrite HT; [lia|].
    intros i Hi. lia.
  - intros Ha Hfit x Hxo. assert (HT : Upload.target_addr m = SLOT_A_ADDRESS)
      by (unfold Upload.target_addr; apply Z.eqb_neq in Ha; now rewrite Ha).
    apply (commit_frame m fl code s e x Hx Hle); rewrite HT.
    + unfold SLOT_A_ADDRESS, SLOT_B_ADDRESS in *; lia.
    + intros i Hi. assert (4 * ((e - s + 3) / 4) <= e - s + 3) by (apply Z.mul_div_le; lia).
      unfold SLOT_A_ADDRESS, SLOT_B_ADDRESS in *; lia.
Qed.

(** An upload written into slot A (slot B active) whose payload is longer
    than slot A programs the word at the start of slot B, and so
    overwrites the active image. *)
Theorem upload_into_a_overflows_into_b (m : boot_metadata) (fl : Flash.flash_mem)
    (code : list byte) (s e : Z) :
  active_slot m <> 0 -> extract_bounds code = (s, e) -> 0 <= s ->
  SLOT_B_ADDRESS - SLOT_A_ADDRESS < e - s <= Upload.MAX_UPLOAD_SIZE ->
  In (Upload.EFlash (Flash.ProgramWord SLOT_B_ADDRESS (load_word code s (Z.to_nat 0x38000))))
     (Upload.trace (Upload.commit_upload m fl code))
  /\ Upload.flash (Upload.commit_upload m fl code) SLOT_B_ADDRESS
     = Z.land (fl SLOT_B_ADDRESS) (load_word code s (Z.to_nat 0x38000)).
Proof.
  intros Ha Hx Hs Hl. unfold SLOT_A_ADDRESS, SLOT_B_ADDRESS, Upload.MAX_UPLOAD_SIZE in Hl.
  assert (HT : Upload.target_addr m = SLOT_A_ADDRESS)
    by (unfold Upload.target_addr; apply Z.eqb_neq in Ha; now rewrite Ha).
  assert (Hq : 0x38001 <= (e - s + 3) / 4) by (apply Z.div_le_lower_bound; lia).
  assert (Hn : (Z.to_nat 0x38000 < Z.to_nat ((e - s + 3) / 4))%nat) by lia.
  assert (HB : SLOT_A_ADDRESS + Z.of_nat (Z.to_nat 0x38000) * 4 = SLOT_B_ADDRESS) by reflexivity.
  split.
  - assert (Hok : extraction_ok (extract_bounds code) = true)
      by (rewrite Hx; cbn; apply andb_true_iff; lia).
    destruct (Commit.commit_upload_ok m fl code Hok) as [rep H]. cbv zeta in H. rewrite H.
    clear H. cbn [Upload.trace]. rewrite Hx. cbn [fst snd]. rewrite HT.
    apply in_or_app. left. apply in_map. apply in_or_app. right.
    rewrite flash_write_cmds_eq. right.
    rewrite (u32_id (e - s + 3)) by lia.
    apply in_map_iff. exists (Z.to_nat 0x38000). split.
    + rewrite u32_id; [reflexivity|]. unfold SLOT_A_ADDRESS. lia.
    + apply in_seq. lia.
  - rewrite (commit_upload_flash m fl code s e Hx Hs) by lia. rewrite HT.
    rewrite <- HB at 1. rewrite flash_write_at.
    + rewrite HB. rewrite erase_elsewhere.
      * rewrite erase_elsewhere; [reflexivity|].
        rewrite (proj1 sector_base_slots). unfold SLOT_A_ADDRESS, SLOT_B_ADDRESS. lia.
      * rewrite sector_base_aligned by (unfold SLOT_A_ADDRESS; lia).
        rewrite (proj1 sector_base_slots). unfold SLOT_A_ADDRESS, SLOT_B_ADDRESS. lia.
    + unfold SLOT_A_ADDRESS. lia.
    + lia.
    + pose proof (Z.mul_div_le (e - s + 3) 4 ltac:(lia)). unfold SLOT_A_ADDRESS. lia.
    + exact Hn.
Qed.

Lemma read_available (w : Net.world) :
  Net.available w = true ->
  exists t c r, Net.stream w = (t, c) :: r
    /\ Net.read w = (c, {| Net.clock := Net.clock w; Net.stream := r; Net.fin := Net.fin w |}).
Proof.
  unfold Net.available, Net.read. destruct (Net.stream w) as [|[t c] r]; [discriminate|].
  intros _. eauto.
Qed.


Lemma body_inner_post (cl : Z) (n : nat) (st : Upload.body_state) (w : Net.world) :
  body_ok cl st ->
  let '(st', w') := Upload.body_inner n cl st w in
  body_post cl st w st' w'.
Proof.
  revert st w; induction n as [|n IH]; intros st w (Hlen & Hb & Hmax & Htl).
  - cbn. unfold body_post. rewrite Htl. repeat split; try lia.
  - cbn [Upload.body_inner].
    destruct (Net.available w && Upload.below st cl) eqn:E.
    2:{ unfold body_post. rewrite Htl. repeat split; try lia. }
    apply andb_true_iff in E as [Ea Ebl]. unfold Upload.below in Ebl. apply Z.ltb_lt in Ebl.
    destruct (read_available w Ea) as (t & c & r & Hs & Hr). rewrite Hr.
    cbn [Upload.upload_bytes Upload.code Upload.upload_too_large Upload.timeout].
    destruct (Upload.upload_bytes st + 1 >? Upload.MAX_UPLOAD_SIZE) eqn:Eg.
    + unfold body_post. cbn [Upload.upload_bytes Upload.code Upload.upload_too_large Net.stream].
      rewrite Hs, Eg. cbn [map snd]. rewrite <- app_assoc. cbn [app].
      rewrite length_app. cbn [List.length]. repeat split; try lia.
    + rewrite Z.gtb_ltb in Eg. apply Z.ltb_ge in Eg.
      destruct (Net.millis _) as [tm w2] eqn:Em.
      match goal with |- context [Upload.body_inner n cl ?s2 w2] =>
        specialize (IH s2 w2) end.
      destruct (Upload.body_inner n cl _ w2) as [st' w'].
      assert (Hw2 : Net.stream w2 = r) by (unfold Net.millis in Em; injection Em as _ <-; reflexivity).
      destruct IH as (H1 & H2 & H3 & H4).
      { unfold body_ok. cbn [Upload.upload_bytes Upload.code Upload.upload_too_large].
        rewrite length_app. cbn [List.length]. repeat split; try lia. }
      unfold body_post. rewrite H1, H4. cbn [Upload.code]. rewrite Hw2, Hs.
      cbn [map snd]. rewrite <- app_assoc. repeat split; try lia.
Qed.

Lemma body_post_ok (cl : Z) (st0 st : Upload.body_state) (w0 w : Net.world) :
  body_post cl st0 w0 st w -> Upload.upload_too_large st = false -> body_ok cl st.
Proof.
  intros (H1 & H2 & H3 & H4) Ht. rewrite Ht in H4. symmetry in H4.
  rewrite Z.gtb_ltb in H4. apply Z.ltb_ge in H4. unfold body_ok. repeat split; try lia; assumption.
Qed.

Lemma body_post_trans (cl : Z) (st0 st1 st2 : Upload.body_state) (w0 w1 w2 : Net.world) :
  body_post cl st0 w0 st1 w1 -> body_post cl st1 w1 st2 w2 -> body_post cl st0 w0 st2 w2.
Proof.
  intros (A1 & _) (B1 & B2 & B3 & B4). unfold body_post. rewrite B1, A1. auto.
Qed.

Lemma body_post_refl (cl : Z) (st : Upload.body_state) (w w' : Net.world) :
  body_ok cl st -> Net.stream w' = Net.stream w -> body_post cl st w st w'.
Proof.
  intros (H1 & H2 & H3 & H4) Hs. unfold body_post. rewrite Hs, H4. repeat split; lia.
Qed.

Lemma body_outer_post (cl : Z) (fuel : nat) (st : Upload.body_state) (w : Net.world)
    (st' : Upload.body_state) (w' : Net.world) :
  body_ok cl st -> Upload.body_outer fuel cl st w = Some (st', w') ->
  body_post cl st w st' w'.
Proof.
  revert st w; induction fuel as [|f IH]; intros st w Hok H; [discriminate|].
  cbn [Upload.body_outer] in H.
  destruct (Net.connected w && Upload.below st cl).
  2:{ injection H as <- <-. now apply body_post_refl. }
  destruct (Net.millis w) as [t w1] eqn:Em.
  assert (Hw1 : Net.stream w1 = Net.stream w) by (unfold Net.millis in Em; now injection Em as _ <-).
  destruct (t <? Upload.timeout st).
  2:{ injection H as <- <-. now apply body_post_refl. }
  pose proof (body_inner_post cl (List.length (Net.stream w1)) st w1 Hok) as Hi.
  destruct (Upload.body_inner _ cl st w1) as [st1 w2].
  assert (Hi' : body_post cl st w st1 w2).
  { destruct Hi as (A1 & A2). split; [rewrite A1, Hw1; reflexivity|exact A2]. }
  destruct (Upload.upload_too_large st1) eqn:Et.
  - injection H as <- <-. exact Hi'.
  - apply (body_post_trans cl st st1 st' w w2 w'); [exact Hi'|].
    apply (IH st1 w2); [|exact H]. exact (body_post_ok cl st st1 w w2 Hi' Et).
Qed.

Lemma read_body_post (fuel : nat) (cl : Z) (w : Net.world)
    (st : Upload.body_state) (w' : Net.world) :
  Upload.read_body fuel cl w = Some (st, w') ->
  Upload.code st ++ map snd (Net.stream w') = map snd (Net.stream w)
  /\ Z.of_nat (List.length (Upload.code st)) = Upload.upload_bytes st
  /\ Upload.upload_bytes st <= u32 cl
  /\ Upload.upload_too_large st = (Upload.upload_bytes st >? Upload.MAX_UPLOAD_SIZE).
Proof.
  unfold Upload.read_body. destruct (Net.millis w) as [t w1] eqn:Em.
  assert (Hw1 : Net.stream w1 = Net.stream w) by (unfold Net.millis in Em; now injection Em as _ <-).
  intros H. apply body_outer_post in H.
  - destruct H as (A1 & A2 & A3 & A4). rewrite <- Hw1. rewrite A1. cbn [Upload.code app].
    repeat split; try lia. exact A4.
  - unfold body_ok. cbn. pose proof (Z.mod_pos_bound cl (2 ^ 32) ltac:(lia)). unfold u32.
    repeat split; try lia.
Qed.

(** When the declared Content-Length, as an unsigned 32-bit value, is at
    most MAX_UPLOAD_SIZE, the body loop never flags the upload as too
    large. *)
Theorem no_413_within_limit (fuel : nat) (cl : Z) (w : Net.world)
    (st : Upload.body_state) (w' : Net.world) :
  u32 cl <= Upload.MAX_UPLOAD_SIZE ->
  Upload.read_body fuel cl w = Some (st, w') ->
  Upload.upload_too_large st = false.
Proof.
  intros Hc H. destruct (read_body_post fuel cl w st w' H) as (_ & _ & H3 & H4).
  rewrite H4. rewrite Z.gtb_ltb. apply Z.ltb_ge. lia.
Qed.

Lemma header_line_ok_spec (l : list byte) :
  header_line_ok l = true -> l <> [] /\ ~ In x0a l /\ ~ In x0d l.
Proof.
  unfold header_line_ok. intros H. apply andb_true_iff in H as [H1 H2].
  apply negb_true_iff in H2.
  split; [intros ->; discriminate|].
  split; intros Hin; assert (existsb (fun b => Byte.eqb b x0a || Byte.eqb b x0d) l = true)
    by (apply existsb_exists; eexists; split; [exact Hin|reflexivity]); congruence.
Qed.

Lemma connected_available (w : Net.world) :
  Net.available w = true -> Net.connected w = true.
Proof. unfold Net.connected. intros H. destruct (Net.fin w); [rewrite H, orb_true_r|]; reflexivity. Qed.

Lemma byte_neq_eqb (a b : byte) : a <> b -> Byte.eqb a b = false.
Proof. intros H. destruct (Byte.eqb a b) eqn:E; [apply byte_dec_bl in E; congruence|reflexivity]. Qed.

Lemma read_line_loop_line (t : Z) (l r : list byte) :
  ~ In x0a l -> ~ In x0d l ->
  forall (n : nat) (line : list byte) (w : Net.world),
  Net.stream w = sent_at t (l ++ CRLF ++ r) -> t <= Net.clock w ->
  (List.length l + 2 <= n)%nat ->
  Upload.read_line_loop n w line
  = (line ++ l, {| Net.clock := Net.clock w; Net.stream := sent_at t r; Net.fin := Net.fin w |}).
Proof.
  induction l as [|a l IH]; intros Hlf Hcr n line w Hs Ht Hn.
  - destruct n as [|[|n]]; cbn in Hn; try lia.
    cbn [Upload.read_line_loop]. unfold Net.available, Net.read. rewrite Hs. cbn.
    replace (t <=? Net.clock w) with true by (symmetry; apply Z.leb_le; lia). cbn.
    replace (t <=? Net.clock w) with true by (symmetry; apply Z.leb_le; lia). cbn.
    rewrite app_nil_r. reflexivity.
  - destruct n as [|n]; cbn in Hn; try lia.
    cbn [Upload.read_line_loop]. unfold Net.available at 1, Net.read at 1. rewrite Hs. cbn [sent_at map app].
    replace (t <=? Net.clock w) with true by (symmetry; apply Z.leb_le; lia).
    assert (Ha1 : a <> x0a) by (intros ->; apply Hlf; left; reflexivity).
    assert (Ha2 : a <> x0d) by (intros ->; apply Hcr; left; reflexivity).
    rewrite (byte_neq_eqb _ _ Ha1), (byte_neq_eqb _ _ Ha2).
    cbn [andb]. rewrite IH; cbn [Net.clock Net.fin Net.stream].
    + rewrite <- app_assoc. reflexivity.
    + intros H; apply Hlf; right; exact H.
    + intros H; apply Hcr; right; exact H.
    + reflexivity.
    + exact Ht.
    + lia.
Qed.

Lemma sent_at_length (t : Z) (l : list byte) : List.length (sent_at t l) = List.length l.
Proof. apply length_map. Qed.

Lemma headers_loop_lines (t : Z) (rest : list byte) (ls : list (list byte)) :
  forallb header_line_ok ls = true ->
  forall (fuel : nat) (w : Net.world) (cl : Z),
  Net.stream w = sent_at t (List.concat (map (fun l => l ++ CRLF) ls) ++ CRLF ++ rest) ->
  t <= Net.clock w -> (List.length ls < fuel)%nat ->
  Upload.headers_loop fuel w cl
  = Some (fold_left (fun cl l => if AString.startsWith l CL_PREFIX
                                 then AString.toInt (AString.substring l 15 (Z.of_nat (List.length l)))
                                 else cl) ls cl,
          {| Net.clock := Net.clock w; Net.stream := sent_at t rest; Net.fin := Net.fin w |}).
Proof.
  induction ls as [|l ls IH]; intros Hok fuel w cl Hs Ht Hf.
  - destruct fuel as [|f]; [cbn in Hf; lia|]. cbn [Upload.headers_loop].
    assert (Hav : Net.available w = true)
      by (unfold Net.available; rewrite Hs; cbn; apply Z.leb_le; exact Ht).
    rewrite (connected_available w Hav).
    unfold Upload.read_line.
    rewrite (read_line_loop_line t [] rest ltac:(intros []) ltac:(intros [])
              _ [] w ltac:(exact Hs) Ht).
    + reflexivity.
    + rewrite Hs, sent_at_length. cbn. lia.
  - cbn [forallb] in Hok. apply andb_true_iff in Hok as [Hl Hok'].
    destruct (header_line_ok_spec l Hl) as (Hne & Hlf & Hcr).
    destruct fuel as [|f]; [cbn in Hf; lia|]. cbn [Upload.headers_loop].
    assert (Hs' : Net.stream w = sent_at t (l ++ CRLF ++
                   (List.concat (map (fun l => l ++ CRLF) ls) ++ CRLF ++ rest))).
    { rewrite Hs. cbn [map List.concat]. rewrite <- !app_assoc. reflexivity. }
    assert (Hav : Net.available w = true).
    { unfold Net.available. rewrite Hs'. destruct l as [|a l]; [congruence|]. cbn. apply Z.leb_le. exact Ht. }
    rewrite (connected_available w Hav).
    unfold Upload.read_line.
    rewrite (read_line_loop_line t l _ Hlf Hcr _ [] w Hs' Ht).
    2:{ rewrite Hs', sent_at_length, !length_app. cbn. lia. }
    cbn [app]. destruct l as [|a l0]; [congruence|]. cbn [List.length Nat.eqb].
    rewrite IH; cbn [Net.clock Net.fin Net.stream]; try reflexivity; auto. cbn in Hf. lia.
Qed.

Lemma fold_last_match (ls : list (list byte)) (cl : Z) :
  fold_left (fun cl l => if AString.startsWith l CL_PREFIX
                         then AString.toInt (AString.substring l 15 (Z.of_nat (List.length l)))
                         else cl) ls cl
  = match rev (filter (fun l => AString.startsWith l CL_PREFIX) ls) with
    | l :: _ => AString.toInt (AString.substring l 15 (Z.of_nat (List.length l)))
    | [] => cl
    end.
Proof.
  induction ls as [|l ls IH] using rev_ind; [reflexivity|].
  rewrite fold_left_app, filter_app, rev_app_distr. cbn [fold_left filter].
  destruct (AString.startsWith l CL_PREFIX); [reflexivity|]. exact IH.
Qed.

(** For header lines sent at once and ended by an empty line, the header
    loop returns the value of the last [Content-Length:] line (0 if there
    is none) and leaves the stream just after the blank line. *)
Theorem headers_last_content_length (fuel : nat) (w : Net.world) (t : Z)
    (ls : list (list byte)) (rest : list byte) :
  forallb header_line_ok ls = true ->
  Net.stream w = sent_at t (List.concat (map (fun l => l ++ CRLF) ls) ++ CRLF ++ rest) ->
  t <= Net.clock w -> (List.length ls < fuel)%nat ->
  Upload.headers_loop fuel w 0
  = Some (last_content_length ls,
          {| Net.clock := Net.clock w; Net.stream := sent_at t rest; Net.fin := Net.fin w |}).
Proof.
  intros Hok Hs Ht Hf. rewrite (headers_loop_lines t rest ls Hok fuel w 0 Hs Ht Hf).
  rewrite fold_last_match. reflexivity.
Qed.



Lemma u32_sub (a b : Z) : u32 (u32 a - u32 b) = u32 (a - b).
Proof. unfold u32. symmetry. apply Zminus_mod. Qed.

Lemma wait_loop_idle (c : Z) (n : nat) :
  forall (fuel : nat) (w : Net.world) (j : Z),
  Net.fin w = None -> Net.stream w = [] ->
  j + Z.of_nat n = 500 -> 0 <= j -> Net.clock w = c + 1 + 2 * j -> (n < fuel)%nat ->
  option_map Net.clock (Recovery.wait_loop fuel (u32 c) w) = Some (c + 1002).
Proof.
  induction n as [|n IH]; intros fuel w j Hf Hs Hj Hj0 Hc Hfu;
    (destruct fuel as [|fuel]; [lia|]); cbn [Recovery.wait_loop];
    unfold Net.connected, Net.available; rewrite Hf, Hs; cbn [andb negb];
    unfold Net.millis; rewrite u32_sub, Hc;
    replace (c + 1 + 2 * j - c) with (1 + 2 * j) by lia;
    rewrite (u32_id (1 + 2 * j)) by lia.
  - replace (1 + 2 * j <? 1000) with false by (symmetry; apply Z.ltb_ge; lia).
    cbn [option_map Net.clock]. f_equal. lia.
  - replace (1 + 2 * j <? 1000) with true by (symmetry; apply Z.ltb_lt; lia).
    apply (IH fuel _ (j + 1)); cbn [Net.fin Net.stream Net.clock Recovery.delay]; try lia; auto.
Qed.

(** When a connected client sends nothing, the wait for the request ends
    1002 ms after it starts, whatever the value of the clock, also across
    the 32-bit wrap of [millis()]. *)
Theorem wait_request_idle_1002 (fuel : nat) (w : Net.world) :
  Net.fin w = None -> Net.stream w = [] -> (500 < fuel)%nat ->
  option_map Net.clock (Recovery.wait_request fuel w) = Some (Net.clock w + 1002).
Proof.
  intros Hf Hs Hfu. unfold Recovery.wait_request, Net.millis.
  apply (wait_loop_idle (Net.clock w) 500 fuel _ 0); cbn [Net.fin Net.stream Net.clock]; auto; lia.
Qed.

Lemma wait_request_idle_1002_witness :
  option_map Net.clock (Recovery.wait_request 501 w_idle) = Some (Net.clock w_idle + 1002).
Proof. apply (wait_request_idle_1002 501 w_idle); [reflexivity | reflexivity | lia]. Defined.

(** Metadata updated after an upload makes the boot decision check the
    slot the upload was written to, and no other: it jumps there if its
    vector table passes and aborts otherwise. *)
Theorem boot_after_update_tries_target (m : boot_metadata) (mem : Flash.flash_mem) :
  Boot.boot_decision (Upload.update_metadata m) mem = Boot.try_slot mem (Upload.target_addr m).
Proof.
  unfold Upload.update_metadata, Upload.target_addr.
  destruct (active_slot m =? 0); reflexivity.
Qed.

Lemma nul_free_repeat (b : byte) (n : nat) : b <> x00 -> nul_free (repeat b n) = true.
Proof.
  intros Hb. induction n as [|n IH]; [reflexivity|]. cbn [repeat]. unfold nul_free in *.
  cbn [forallb]. rewrite IH, byte_neq_eqb by exact Hb. reflexivity.
Qed.

Lemma strstr_boundary_repeat (n : nat) (pos : nat) :
  AString.strstr_aux (bytes "----X") (repeat x01 n) pos = None.
Proof.
  revert pos. induction n as [|n IH]; intros pos; [reflexivity|].
  cbn [repeat]. rewrite Search.strstr_aux_cons. apply IH.
Qed.

Lemma long_payload_bounds :
  extract_bounds (example_body long_payload) = (98, 96 + 917520).
Proof.
  assert (Hl : Z.of_nat (List.length long_payload) = 917520)
    by (unfold long_payload; rewrite repeat_length; apply Z2Nat.id; lia).
  rewrite <- Hl. apply extract_bounds_example.
  - apply nul_free_repeat. discriminate.
  - apply strstr_boundary_repeat.
  - rewrite Hl. unfold Upload.MAX_UPLOAD_SIZE. lia.
Qed.

(** Saving metadata into a metadata file that is already non-empty
    appends to it, and the next [load_metadata] then fails its size check:
    the file is no longer 20 bytes. *)
Theorem load_after_append (v : Meta.volume) (m : boot_metadata) (b : list byte) :
  Meta.meta_bin v = Some b -> b <> [] ->
  Meta.load_metadata (Meta.save_metadata v m) = None.
Proof. exact (append_load_fails v m b). Qed.

(** A [flash_write] changes no flash word outside the sector of its start
    address, except the words it programs. *)
Theorem flash_write_frame (m : Flash.flash_mem) (addr : Z) (src : nat -> Z) (len x : Z) :
  0 <= addr < 2 ^ 32 -> 0 <= len <= 2 ^ 32 - 4 ->
  ~ (Flash.sector_base addr <= x < Flash.sector_base addr + 4096) ->
  (forall i, (i < Z.to_nat ((len + 3) / 4))%nat -> x <> u32 (addr + Z.of_nat i * 4)) ->
  snd (fst (Flash.flash_write m addr src len)) x = m x.
Proof. exact (flash_write_outside m addr src len x). Qed.

(** The body loop buffers exactly the bytes it takes off the stream, in
    order. The counter equals the buffer length and never exceeds the
    declared Content-Length as an unsigned 32-bit value. The too-large
    flag is set exactly when the counter exceeds MAX_UPLOAD_SIZE. *)
Theorem read_body_buffer (fuel : nat) (cl : Z) (w : Net.world)
    (st : Upload.body_state) (w' : Net.world) :
  Upload.read_body fuel cl w = Some (st, w') ->
  Upload.code st ++ map snd (Net.stream w') = map snd (Net.stream w)
  /\ Z.of_nat (List.length (Upload.code st)) = Upload.upload_bytes st
  /\ Upload.upload_bytes st <= u32 cl
  /\ Upload.upload_too_large st = (Upload.upload_bytes st >? Upload.MAX_UPLOAD_SIZE).
Proof. exact (read_body_post fuel cl w st w'). Qed.

Lemma load_after_first_save_witness :
  Meta.load_metadata (Meta.save_metadata {| Meta.meta_bin := None |} m0) = Some m0.
Proof. apply (load_after_first_save {| Meta.meta_bin := None |} m0); vm_compute; reflexivity. Defined.

Lemma load_after_append_witness :
  Meta.load_metadata (Meta.save_metadata {| Meta.meta_bin := Some (Meta.encode m0) |} m0) = None.
Proof.
  apply (load_after_append {| Meta.meta_bin := Some (Meta.encode m0) |} m0 (Meta.encode m0)).
  - reflexivity.
  - vm_compute. discriminate.
Defined.

Lemma fresh_volume_boots_recovery_witness :
  Meta.init_metadata {| Meta.meta_bin := None |}
    = (Meta.zero_meta, {| Meta.meta_bin := Some (Meta.encode Meta.zero_meta) |}, Meta.Reinit true)
  /\ fst (Meta.boot {| Meta.meta_bin := None |} old_flash) = Boot.EnterRecovery.
Proof. apply (fresh_volume_boots_recovery {| Meta.meta_bin := None |} old_flash). reflexivity. Defined.

Lemma existing_file_kept_or_reinit_fails_witness :
  (List.length (Meta.encode m0) = Meta.META_SIZE
   /\ active_slot (Meta.decode (Meta.encode m0)) <> 0xFFFFFFFF
   /\ Meta.init_metadata {| Meta.meta_bin := Some (Meta.encode m0) |}
      = (Meta.decode (Meta.encode m0), {| Meta.meta_bin := Some (Meta.encode m0) |}, Meta.Loaded))
  \/ Meta.init_metadata {| Meta.meta_bin := Some (Meta.encode m0) |}
     = (Meta.zero_meta, {| Meta.meta_bin := Some (Meta.encode m0 ++ Meta.encode Meta.zero_meta) |},
        Meta.Reinit false).
Proof.
  apply (existing_file_kept_or_reinit_fails {| Meta.meta_bin := Some (Meta.encode m0) |}
           (Meta.encode m0)).
  - reflexivity.
  - vm_compute. discriminate.
Defined.

Lemma flash_write_in_sector_witness :
  snd (snd (Flash.flash_write old_flash SLOT_B_ADDRESS inj_src 12)) = Flash.VerifyOk
  /\ forall i, (i < Z.to_nat ((12 + 3) / 4))%nat ->
       snd (fst (Flash.flash_write old_flash SLOT_B_ADDRESS inj_src 12))
         (SLOT_B_ADDRESS + Z.of_nat i * 4) = inj_src i.
Proof.
  apply (flash_write_in_sector old_flash SLOT_B_ADDRESS inj_src 12).
  - unfold SLOT_B_ADDRESS. lia.
  - lia.
  - apply Z.leb_le. vm_compute. reflexivity.
  - intros i Hi. change (Z.to_nat ((12 + 3) / 4)) with 3%nat in Hi. unfold inj_src. lia.
Defined.

Lemma flash_write_frame_witness :
  snd (fst (Flash.flash_write old_flash SLOT_B_ADDRESS inj_src 12)) (SLOT_B_ADDRESS + 4096)
  = old_flash (SLOT_B_ADDRESS + 4096).
Proof.
  apply (flash_write_frame old_flash SLOT_B_ADDRESS inj_src 12 (SLOT_B_ADDRESS + 4096)).
  - unfold SLOT_B_ADDRESS. lia.
  - lia.
  - rewrite (proj2 sector_base_slots). lia.
  - intros i Hi. change (Z.to_nat ((12 + 3) / 4)) with 3%nat in Hi.
    rewrite u32_id by (unfold SLOT_B_ADDRESS; lia). unfold SLOT_B_ADDRESS. lia.
Defined.

Lemma upload_keeps_active_slot_witness :
  (active_slot m0 = 0 -> forall x, x < SLOT_B_ADDRESS ->
     Upload.flash (Upload.commit_upload m0 old_flash (example_body (bytes "ABCDEFGH"))) x
     = old_flash x)
  /\ (active_slot m0 <> 0 -> 104 - 98 <= SLOT_B_ADDRESS - SLOT_A_ADDRESS ->
     forall x, x < SLOT_A_ADDRESS \/ SLOT_B_ADDRESS <= x ->
     Upload.flash (Upload.commit_upload m0 old_flash (example_body (bytes "ABCDEFGH"))) x
     = old_flash x).
Proof.
  apply (upload_keeps_active_slot m0 old_flash (example_body (bytes "ABCDEFGH")) 98 104).
  - vm_compute. reflexivity.
  - unfold Upload.MAX_UPLOAD_SIZE. lia.
Defined.

Lemma upload_into_a_overflows_into_b_witness :
  In (Upload.EFlash (Flash.ProgramWord SLOT_B_ADDRESS
        (load_word (example_body long_payload) 98 (Z.to_nat 0x38000))))
     (Upload.trace (Upload.commit_upload (Upload.update_metadata m0) old_flash
                      (example_body long_payload)))
  /\ Upload.flash (Upload.commit_upload (Upload.update_metadata m0) old_flash
                     (example_body long_payload)) SLOT_B_ADDRESS
     = Z.land (old_flash SLOT_B_ADDRESS)
         (load_word (example_body long_payload) 98 (Z.to_nat 0x38000)).
Proof.
  apply (upload_into_a_overflows_into_b (Upload.update_metadata m0) old_flash
           (example_body long_payload) 98 (96 + 917520)).
  - vm_compute. discriminate.
  - exact long_payload_bounds.
  - lia.
  - unfold SLOT_A_ADDRESS, SLOT_B_ADDRESS, Upload.MAX_UPLOAD_SIZE. lia.
Defined.

Lemma read_body_buffer_witness :
  bytes "hello" ++ map snd (@nil (Z * byte)) = map snd (Net.stream w_body)
  /\ Z.of_nat (List.length (bytes "hello")) = 5
  /\ 5 <= u32 5
  /\ false = (5 >? Upload.MAX_UPLOAD_SIZE).
Proof.
  apply (read_body_buffer 100 5 w_body
           {| Upload.upload_bytes := 5; Upload.upload_too_large := false;
              Upload.timeout := 10013; Upload.code := bytes "hello" |}
           {| Net.clock := 14; Net.stream := []; Net.fin := None |}).
  vm_compute. reflexivity.
Defined.

Lemma no_413_within_limit_witness :
  u32 5 <= Upload.MAX_UPLOAD_SIZE
  /\ Upload.upload_too_large
       {| Upload.upload_bytes := 5; Upload.upload_too_large := false;
          Upload.timeout := 10013; Upload.code := bytes "hello" |} = false.
Proof.
  assert (Hc : u32 5 <= Upload.MAX_UPLOAD_SIZE) by (apply Z.leb_le; vm_compute; reflexivity).
  split; [exact Hc|].
  apply (no_413_within_limit 100 5 w_body _
           {| Net.clock := 14; Net.stream := []; Net.fin := None |} Hc).
  vm_compute. reflexivity.
Defined.

Lemma headers_last_content_length_witness :
  last_content_length hl_ex = 7
  /\ Upload.headers_loop 10 w_hdr 0
     = Some (last_content_length hl_ex,
             {| Net.clock := Net.clock w_hdr; Net.stream := sent_at 0 (bytes "xy");
                Net.fin := Net.fin w_hdr |}).
Proof.
  split; [vm_compute; reflexivity|].
  apply (headers_last_content_length 10 w_hdr 0 hl_ex (bytes "xy")).
  - vm_compute. reflexivity.
  - reflexivity.
  - cbn. lia.
  - cbn. lia.
Defined.

Lemma request_line_loop_line (t : Z) (l r : list byte) :
  ~ In x0a l -> ~ In x0d l ->
  forall (n : nat) (line : list byte) (w : Net.world),
  Net.fin w = None -> Net.stream w = sent_at t (l ++ CRLF ++ r) -> t <= Net.clock w ->
  (List.length l + 2 <= n)%nat ->
  Recovery.request_line_loop n w line
  = (line ++ l, {| Net.clock := Net.clock w; Net.stream := sent_at t r; Net.fin := Net.fin w |}).
Proof.
  induction l as [|a l IH]; intros Hlf Hcr n line w Hf Hs Ht Hn.
  - destruct n as [|[|n]]; cbn in Hn; try lia.
    cbn [Recovery.request_line_loop]. unfold Net.connected, Net.available, Net.read.
    rewrite Hf, Hs. cbn.
    replace (t <=? Net.clock w) with true by (symmetry; apply Z.leb_le; lia). cbn.
    replace (t <=? Net.clock w) with true by (symmetry; apply Z.leb_le; lia). cbn.
    rewrite app_nil_r. reflexivity.
  - destruct n as [|n]; cbn in Hn; try lia.
    cbn [Recovery.request_line_loop]. unfold Net.connected, Net.available, Net.read.
    rewrite Hf, Hs. cbn [sent_at map app].
    replace (t <=? Net.clock w) with true by (symmetry; apply Z.leb_le; lia).
    assert (Ha1 : a <> x0a) by (intros ->; apply Hlf; left; reflexivity).
    assert (Ha2 : a <> x0d) by (intros ->; apply Hcr; left; reflexivity).
    rewrite (byte_neq_eqb _ _ Ha1), (byte_neq_eqb _ _ Ha2).
    cbn [andb]. rewrite IH; cbn [Net.clock Net.fin Net.stream].
    + rewrite <- app_assoc. cbn [app]. rewrite ?Hf. reflexivity.
    + intros H; apply Hlf; right; exact H.
    + intros H; apply Hcr; right; exact H.
    + reflexivity.
    + reflexivity.
    + exact Ht.
    + lia.
Qed.

(** A client that is connected and whose request line is already
    buffered is dispatched on that line: [POST /upload] runs the upload
    path on the rest of the stream; any other request line gets a [200]
    and the connection is closed, with no flash command, no metadata
    save and no reset. *)
Theorem serve_client_dispatch (fuel : nat) (m : boot_metadata) (fl : Flash.flash_mem)
    (w : Net.world) (t : Z) (l rest : list byte) :
  Net.fin w = None -> Net.stream w = sent_at t (l ++ CRLF ++ rest) -> t <= Net.clock w ->
  header_line_ok l = true -> (0 < fuel)%nat ->
  Recovery.serve_client fuel m fl w
  = if AString.startsWith l (bytes "POST /upload")
    then Upload.handle_upload fuel m fl
           {| Net.clock := Net.clock w + 1; Net.stream := sent_at t rest; Net.fin := None |}
    else Some {| Upload.trace := [Upload.EResp 200; Upload.EStop]; Upload.next := Upload.Continue;
                 Upload.meta := m; Upload.flash := fl |}.
Proof.
  intros Hf Hs Ht Hok Hfu. destruct (header_line_ok_spec l Hok) as (_ & Hlf & Hcr).
  unfold Recovery.serve_client, Recovery.wait_request, Net.millis.
  destruct fuel as [|fuel]; [lia|]. cbn [Recovery.wait_loop].
  unfold Net.connected, Net.available. cbn [Net.fin Net.stream Net.clock].
  rewrite Hf, Hs.
  destruct l as [|a l']; [discriminate|].
  cbn [sent_at map app].
  replace (t <=? Net.clock w + 1) with true by (symmetry; apply Z.leb_le; lia).
  cbn [andb negb].
  unfold Recovery.request_line.
  rewrite (request_line_loop_line t (a :: l') rest Hlf Hcr _ []
             {| Net.clock := Net.clock w + 1; Net.stream := sent_at t ((a :: l') ++ CRLF ++ rest);
                Net.fin := None |}); cbn [Net.clock Net.fin Net.stream app]; try reflexivity.
  - destruct (AString.startsWith (a :: l') (bytes "POST /upload")); [reflexivity|].
    destruct (AString.startsWith (a :: l') (bytes "GET / ")
              || AString.startsWith (a :: l') (bytes "GET /HTTP")); reflexivity.
  - lia.
  - cbn [List.length]. rewrite length_map, !length_app. cbn [List.length CRLF bytes]. lia.
Qed.

Lemma serve_client_dispatch_witness :
  Recovery.serve_client 10 m0 old_flash (request_at 7 (bytes "GET / HTTP/1.1") [] None)
  = Some {| Upload.trace := [Upload.EResp 200; Upload.EStop]; Upload.next := Upload.Continue;
            Upload.meta := m0; Upload.flash := old_flash |}.
Proof.
  apply (serve_client_dispatch 10 m0 old_flash (request_at 7 (bytes "GET / HTTP/1.1") [] None)
           0 (bytes "GET / HTTP/1.1") []).
  - reflexivity.
  - reflexivity.
  - cbn. lia.
  - vm_compute. reflexivity.
  - lia.
Defined.
